(** * update_historia.py: copying Historia/ content into the website directory

    A shallow embedding of [src/update_historia.py] and the properties the
    specification states about it.

    The script is file-system plumbing, so the embedding consists of
    - a file system: a tree of regular files (byte content) and directories
      (finite maps from entry names to nodes);
    - the library calls the script makes ([Path.exists], [Path.is_file],
      [Path.glob("*")], [Path.mkdir(parents=True, exist_ok=True)],
      [shutil.copy2], [print], [sys.exit]) as operations of a small state and
      exception monad over that file system;
    - [main], written in that monad line by line after the Python.

    Outside the model: symbolic links, hard links and special files (every
    entry is a regular file or a directory), file metadata (which [copy2]
    also copies), permissions and disk space.  The order in which
    [glob] yields the entries of a directory is the enumeration order of the
    finite map of that directory; the real order is the one [os.scandir]
    gives, and the properties of the script below are stated so that they
    do not depend on which order it is. *)

From Stdlib Require Import Strings.Byte ZArith.
From stdpp Require Import gmap strings list fin_maps.

Set Warnings "-register-all".
Open Scope Z_scope.
Open Scope string_scope.
Open Scope list_scope.

(** ** Paths *)

(** An absolute, normalised path ([os.path.abspath]) is the list of its
    components below the root; [[]] is the root directory itself. *)
Abbreviation path := (list string).

(** [Path.parent]: the parent of the root is the root. *)
Definition parent (p : path) : path := removelast p.

(** [p / name] *)
Notation "p </> n" := (p ++ [n]) (at level 45, left associativity, only parsing).

(** [Path.name]: the last component. *)
Definition name (p : path) : string := List.last p "".

(** [str(p)] as the f-strings of the script print it. *)
Definition str (p : path) : string := "/" +:+ String.concat "/" p.

(** ** The file system *)

Inductive node :=
| File (data : list byte)
| Dir (entries : gmap string node).

Fixpoint resolve (t : node) (p : path) : option node :=
  match p with
  | [] => Some t
  | n :: p' =>
      match t with
      | File _ => None
      | Dir es => match es !! n with
                  | Some c => resolve c p'
                  | None => None
                  end
      end
  end.

(** [Path.exists], [Path.is_file], [os.path.isdir]: a path that runs through
    a regular file, or through a missing entry, does not exist. *)
Definition exists_at (t : node) (p : path) : bool :=
  match resolve t p with Some _ => true | None => false end.

Definition isfile (t : node) (p : path) : bool :=
  match resolve t p with Some (File _) => true | _ => false end.

Definition isdir (t : node) (p : path) : bool :=
  match resolve t p with Some (Dir _) => true | _ => false end.

(** [Path.glob("*")]: the entries of a directory, dot files included
    (pathlib does not treat them specially), as paths below it; nothing for
    a path that is not a directory. The listing is not recursive. *)
Definition listdir (t : node) (p : path) : list path :=
  match resolve t p with
  | Some (Dir es) => (fun e => p </> e.1) <$> map_to_list es
  | _ => []
  end.

(** ** Exceptions *)

Inductive exn :=
| SystemExit (code : Z)
| SameFileError
| IsADirectoryError
| NotADirectoryError
| FileNotFoundError
| FileExistsError.

(** [open(p, 'wb')] followed by writing [data]: the file is created in an
    existing directory or truncated and rewritten. *)
Fixpoint write_file (p : path) (data : list byte) (t : node) : exn + node :=
  match p with
  | [] =>
      match t with
      | File _ => inr (File data)
      | Dir _ => inl IsADirectoryError
      end
  | n :: p' =>
      match t with
      | File _ => inl NotADirectoryError
      | Dir es =>
          match es !! n with
          | Some c =>
              match write_file p' data c with
              | inr c' => inr (Dir (<[n := c']> es))
              | inl e => inl e
              end
          | None =>
              match p' with
              | [] => inr (Dir (<[n := File data]> es))
              | _ :: _ => inl FileNotFoundError
              end
          end
      end
  end.

(** [os.path.samefile] as [shutil] uses it: both paths exist and name the
    same entry (without links: they are the same path). *)
Definition samefile (t : node) (src dst : path) : bool :=
  bool_decide (src = dst) && exists_at t src.

(** Where [shutil.copy2 src dst] writes: into [dst] when [dst] is a
    directory, under the base name of [src]. *)
Definition copy_target (t : node) (src dst : path) : path :=
  if isdir t dst then dst </> name src else dst.

(** [shutil.copy2 src dst] on the file system: the same-file check, then
    [src] is opened for reading, then the target for writing. An exception
    leaves the file system as it was. *)
Definition copy2_fs (src dst : path) (t : node) : exn + node :=
  let dst := copy_target t src dst in
  if samefile t src dst then inl SameFileError
  else match resolve t src with
       | None => inl FileNotFoundError
       | Some (Dir _) => inl IsADirectoryError
       | Some (File data) => write_file dst data t
       end.

(** [Path(p).mkdir(parents=True, exist_ok=True)]: missing ancestors are
    created, an existing directory is accepted. *)
Fixpoint mkdir_p (p : path) (t : node) : exn + node :=
  match p with
  | [] =>
      match t with
      | Dir _ => inr t
      | File _ => inl FileExistsError
      end
  | n :: p' =>
      match t with
      | File _ => inl NotADirectoryError
      | Dir es =>
          match mkdir_p p' (default (Dir ∅) (es !! n)) with
          | inr c' => inr (Dir (<[n := c']> es))
          | inl e => inl e
          end
      end
  end.

(** ** The process: file system, standard output, trace of mutating calls *)

(** The calls that may change the file system. The trace records each one
    when it is issued, with the file system it is issued in. *)
Inductive call :=
| Mkdir (p : path)
| Copy (src dst : path).

Record world := World {
  w_fs : node;
  w_out : list string;
  w_log : list (call * node)
}.

Definition M (A : Type) : Type := world -> (exn + A) * world.

Definition ret {A} (a : A) : M A := fun w => (inr a, w).

Definition bind {A B} (m : M A) (k : A -> M B) : M B :=
  fun w => match m w with
           | (inr a, w') => k a w'
           | (inl e, w') => (inl e, w')
           end.

Notation "x <- m ;; k" := (bind m (fun x => k))
  (at level 100, m at next level, right associativity).
Notation "m ;; k" := (bind m (fun _ => k))
  (at level 100, right associativity).

Definition print (s : string) : M unit :=
  fun w => (inr tt, World (w_fs w) (w_out w ++ [s]) (w_log w)).

Definition sys_exit {A} (code : Z) : M A :=
  fun w => (inl (SystemExit code), w).

Definition path_exists (p : path) : M bool :=
  fun w => (inr (exists_at (w_fs w) p), w).

Definition is_file (p : path) : M bool :=
  fun w => (inr (isfile (w_fs w) p), w).

Definition glob (p : path) : M (list path) :=
  fun w => (inr (listdir (w_fs w) p), w).

Definition traced (c : call) (op : node -> exn + node) : M unit :=
  fun w =>
    let log := w_log w ++ [(c, w_fs w)] in
    match op (w_fs w) with
    | inr t' => (inr tt, World t' (w_out w) log)
    | inl e => (inl e, World (w_fs w) (w_out w) log)
    end.

Definition mkdir (p : path) : M unit := traced (Mkdir p) (mkdir_p p).

Definition copy2 (src dst : path) : M unit :=
  traced (Copy src dst) (copy2_fs src dst).

(** [for x in xs: body] *)
Fixpoint for_ {A} (xs : list A) (body : A -> M unit) : M unit :=
  match xs with
  | [] => ret tt
  | x :: xs' => body x ;; for_ xs' body
  end.

(** ** The script *)

Section Script.

(** [base_dir]: the directory the script file is in. *)
Variable base_dir : path.

Definition historia_dir : path := parent base_dir </> "Historia".
Definition website_dir : path := base_dir.

Definition source_json : path := historia_dir </> "correct_answers.json".
Definition dest_json : path := website_dir </> "correct_answers.json".

Definition source_images : path := historia_dir </> "images".
Definition dest_images : path := website_dir </> "images".

(** The lines the script prints. *)
Definition msg_no_historia : string :=
  "Error: Source directory '" +:+ str historia_dir +:+ "' does not exist.".
Definition msg_no_json : string :=
  "Warning: Source file '" +:+ str source_json +:+ "' does not exist. Skipping.".
Definition msg_no_images : string :=
  "Warning: Source directory '" +:+ str source_images +:+ "' does not exist. Skipping.".
Definition msg_mkdir : string :=
  "Creating destination directory '" +:+ str dest_images +:+ "'".
Definition msg_copy (src dst : path) : string :=
  "Copying " +:+ str src +:+ " to " +:+ str dst.
Definition msg_done : string := "Update completed successfully!".

(** Lines 24-26. *)
Definition check_historia : M unit :=
  b <- path_exists historia_dir ;;
  if negb b then
    print msg_no_historia ;;
    sys_exit 1
  else ret tt.

(** Lines 32-36. *)
Definition update_json : M unit :=
  b <- path_exists source_json ;;
  if negb b then
    print msg_no_json
  else
    print (msg_copy source_json dest_json) ;;
    copy2 source_json dest_json.

(** Lines 52-55, the body of the loop. *)
Definition copy_item (item : path) : M unit :=
  f <- is_file item ;;
  if f then
    let dest_file := dest_images </> name item in
    print (msg_copy item dest_file) ;;
    copy2 item dest_file
  else ret tt.

(** Lines 42-55. *)
Definition update_images : M unit :=
  b <- path_exists source_images ;;
  if negb b then
    print msg_no_images
  else
    (b' <- path_exists dest_images ;;
     if negb b' then
       print msg_mkdir ;;
       mkdir dest_images
     else ret tt) ;;
    items <- glob source_images ;;
    for_ items copy_item.

(** Lines 15-57. *)
Definition main : M unit :=
  check_historia ;;
  update_json ;;
  update_images ;;
  print msg_done.

End Script.

(** The exit status of the Python process: [sys.exit(n)] gives [n], any other
    uncaught exception gives 1, a normal return 0. *)
Definition exit_code (r : exn + unit) : Z :=
  match r with
  | inr _ => 0
  | inl (SystemExit c) => c
  | inl _ => 1
  end.

(** One invocation of the script in file system [t]. *)
Definition run (base_dir : path) (t : node) : (exn + unit) * world :=
  main base_dir (World t [] []).

Definition run_fs (base_dir : path) (t : node) : node := w_fs (run base_dir t).2.
Definition run_out (base_dir : path) (t : node) : list string := w_out (run base_dir t).2.
Definition run_log (base_dir : path) (t : node) : list (call * node) := w_log (run base_dir t).2.
Definition run_exit (base_dir : path) (t : node) : Z := exit_code (run base_dir t).1.

(** ** Notions used to state and prove the properties *)

(** The world after [print s]. *)
Definition printed (s : string) (w : world) : world :=
  World (w_fs w) (w_out w ++ [s]) (w_log w).

(** Lines 46-48 run on a world: the conditional that opens the second branch
    of [update_images]. *)
Definition ensure_dest_images (base : path) (w : world) : (exn + unit) * world :=
  if exists_at (w_fs w) (dest_images base) then (inr tt, w)
  else mkdir (dest_images base) (printed (msg_mkdir base) w).

(** The effect of a call on the file system. *)
Definition call_fs (c : call) : node -> exn + node :=
  match c with
  | Mkdir p => mkdir_p p
  | Copy src dst => copy2_fs src dst
  end.

(** One successful mutating call of the script: the copy of the answers file
    (when [J] allows it), the creation of the destination image directory,
    or the copy of the image called [n] (when [N n] allows it). *)
Inductive step (base : path) (J : Prop) (N : string -> Prop) (t t' : node) : Prop :=
| step_json :
    J -> copy2_fs (source_json base) (dest_json base) t = inr t' ->
    step base J N t t'
| step_mkdir :
    exists_at t (source_images base) = true ->
    exists_at t (dest_images base) = false ->
    mkdir_p (dest_images base) t = inr t' ->
    step base J N t t'
| step_image n :
    N n -> isfile t (source_images base ++ [n]) = true ->
    copy2_fs (source_images base ++ [n]) (dest_images base ++ [n]) t = inr t' ->
    step base J N t t'.

(** Any number of such calls, one after the other. *)
Definition steps (base : path) (J : Prop) (N : string -> Prop) : relation node :=
  rtc (step base J N).

(** [q] is not the path any of the allowed copies writes to: the
    destination path of the copy, or the path under the base name of the
    source inside it when the destination path is a directory. *)
Definition off_targets (base : path) (J : Prop) (N : string -> Prop) (q : path) : Prop :=
  (J -> q <> base ++ ["correct_answers.json"]
        /\ q <> base ++ ["correct_answers.json"; "correct_answers.json"])
  /\ (forall n, N n -> q <> base ++ ["images"; n] /\ q <> base ++ ["images"; n; n]).

(** [q] is neither a path an allowed call writes to or creates, nor above
    one. *)
Definition apart (base : path) (J : Prop) (N : string -> Prop) (q : path) : Prop :=
  (J -> ~ q `prefix_of` base ++ ["correct_answers.json"; "correct_answers.json"])
  /\ ~ q `prefix_of` base ++ ["images"]
  /\ (forall n, N n -> ~ q `prefix_of` base ++ ["images"; n; n]).

(** The mutating calls of the script and the conditions under which it
    issues them. *)
Definition program_call (base : path) (J : Prop) (N : string -> Prop)
    (c : call) (s : node) : Prop :=
  (J /\ c = Copy (source_json base) (dest_json base)
     /\ exists_at s (source_json base) = true)
  \/ (c = Mkdir (dest_images base)
      /\ exists_at s (source_images base) = true
      /\ exists_at s (dest_images base) = false)
  \/ (exists n, N n
        /\ c = Copy (source_images base ++ [n]) (dest_images base ++ [n])
        /\ isfile s (source_images base ++ [n]) = true).

(** [w'] comes after [w] in an execution of the script: the file system
    changed by successful calls only, standard output and the trace grew at
    their ends, and every new entry of the trace is a call of the script,
    issued in a file system that lies between the two. *)
Definition evolves (base : path) (J : Prop) (N : string -> Prop) (w w' : world) : Prop :=
  steps base J N (w_fs w) (w_fs w')
  /\ (exists o, w_out w' = w_out w ++ o)
  /\ exists l, w_log w' = w_log w ++ l
       /\ forall c s, (c, s) ∈ l ->
            program_call base J N c s
            /\ steps base J N (w_fs w) s
            /\ steps base J N s (w_fs w').

(** File-system calls raise [OSError]s, never [SystemExit]. *)
Definition os_error (e : exn) : Prop :=
  match e with SystemExit _ => False | _ => True end.

(** The run stopped in [w'] with the exception [e] of its last call. *)
Definition raised (P : call -> Prop) (e : exn) (w' : world) : Prop :=
  exists c l, w_log w' = l ++ [(c, w_fs w')]
              /\ call_fs c (w_fs w') = inl e
              /\ P c.

(** The calls of the image step. *)
Definition image_call (base : path) (c : call) : Prop :=
  c = Mkdir (dest_images base)
  \/ exists n, c = Copy (source_images base ++ [n]) (dest_images base ++ [n]).

(** Running [m] in [v] gives the result [r] and the file system [t]. *)
Definition yields (m : M unit) (v : world) (r : exn + unit) (t : node) : Prop :=
  (m v).1 = r /\ w_fs (m v).2 = t.

(** The answers step has nothing left to do in [t]. *)
Definition json_settled (base : path) (t : node) : Prop :=
  exists_at t (source_json base) = false
  \/ copy2_fs (source_json base) (dest_json base) t = inr t.

(** [u] has under the source root what [t] has there. *)
Definition same_source (base : path) (t u : node) : Prop :=
  forall x : path,
    resolve u (historia_dir base ++ x) = resolve t (historia_dir base ++ x).

(** The copies the loop of lines 51-55 makes for [items], in order, when the
    regular files among them are those of [t]. *)
Definition items_plan (base : path) (t : node) (items : list path) : list call :=
  (fun i => Copy i (dest_images base ++ [name i]))
    <$> filter (fun i => isfile t i = true) items.

(** The calls of the image step (lines 42-55) in file system [t]. *)
Definition images_plan (base : path) (t : node) : list call :=
  if exists_at t (source_images base) then
    (if exists_at t (dest_images base) then [] else [Mkdir (dest_images base)])
    ++ items_plan base t (listdir t (source_images base))
  else [].

(** The calls of the answers step (lines 32-36) in file system [t]. *)
Definition json_plan (base : path) (t : node) : list call :=
  if exists_at t (source_json base)
  then [Copy (source_json base) (dest_json base)] else [].

(** The mutating calls a run started in [t] makes when none of them
    raises, in the order in which it makes them. *)
Definition plan (base : path) (t : node) : list call :=
  if exists_at t (historia_dir base)
  then json_plan base t ++ images_plan base t
  else [].


(** The calls a run makes before the loop over the images when none of them
    raises: the copy of the answers file, then [mkdir]. *)
Definition head_plan (base : path) (t : node) : list call :=
  if exists_at t (historia_dir base) then
    json_plan base t
    ++ (if exists_at t (source_images base) && negb (exists_at t (dest_images base))
        then [Mkdir (dest_images base)] else [])
  else [].

(** ** Sample file systems *)

Definition bytes_a : list byte := [x89; x50; x4e; x47].
Definition bytes_b : list byte := [x42].
Definition bytes_j : list byte := [x7b; x7d].
Definition bytes_old : list byte := [x6f; x6c; x64].

(** A directory from the list of its entries. *)
Definition dir_of (l : list (string * node)) : node := Dir (list_to_map l).

(** The script lives in [/site]. *)
Definition site : path := ["site"].

(** Answers and images in the source, among them a dot file and a
    subdirectory; a destination without answers file and image directory. *)
Definition fs_typical : node :=
  dir_of [("Historia", dir_of [("correct_answers.json", File bytes_j);
                                ("images", dir_of [("a.png", File bytes_a);
                                                   ("b.png", File bytes_b);
                                                   (".hidden", File bytes_b);
                                                   ("sub", dir_of [("c.png", File bytes_a)])])]);
          ("site", dir_of [("update_historia.py", File []);
                           ("keep.txt", File bytes_old)])].

(** No source root next to the site. *)
Definition fs_no_source : node :=
  dir_of [("site", dir_of [("update_historia.py", File []);
                           ("correct_answers.json", File bytes_old);
                           ("images", dir_of [("a.png", File bytes_old)])])].

(** The source root path is taken by a regular file. *)
Definition fs_source_is_file : node :=
  dir_of [("Historia", File bytes_j);
          ("site", dir_of [("update_historia.py", File []);
                           ("correct_answers.json", File bytes_old)])].

(** The source root is there and empty. *)
Definition fs_empty_source : node :=
  dir_of [("Historia", dir_of []);
          ("site", dir_of [("update_historia.py", File []);
                           ("correct_answers.json", File bytes_old)])].

(** A destination with files the source does not have. *)
Definition fs_stale : node :=
  dir_of [("Historia", dir_of [("correct_answers.json", File bytes_j);
                                ("images", dir_of [("a.png", File bytes_a)])]);
          ("site", dir_of [("update_historia.py", File []);
                           ("keep.txt", File bytes_old);
                           ("correct_answers.json", File bytes_old);
                           ("images", dir_of [("a.png", File bytes_old);
                                              ("stale.png", File bytes_old)])])].

(** The source has images and the destination has no image directory. *)
Definition fs_no_dest_images : node :=
  dir_of [("Historia", dir_of [("correct_answers.json", File bytes_j);
                                ("images", dir_of [("a.png", File bytes_a);
                                                   ("b.png", File bytes_b)])]);
          ("site", dir_of [("update_historia.py", File [])])].

(** The destination already has a directory where the answers file goes. *)
Definition fs_json_dest_dir : node :=
  dir_of [("Historia", dir_of [("correct_answers.json", File bytes_j)]);
          ("site", dir_of [("update_historia.py", File []);
                           ("correct_answers.json", dir_of [])])].

(** The destination image directory already has a directory called a.png. *)
Definition fs_image_dest_dir : node :=
  dir_of [("Historia", dir_of [("images", dir_of [("a.png", File bytes_a);
                                                   ("b.png", File bytes_b)])]);
          ("site", dir_of [("update_historia.py", File []);
                           ("images", dir_of [("a.png", dir_of [])])])].

(** The source has images but no answers file, and the destination has a
    regular file where its image directory should be. *)
Definition fs_images_is_file : node :=
  dir_of [("Historia", dir_of [("images", dir_of [("a.png", File bytes_a)])]);
          ("site", dir_of [("update_historia.py", File []);
                           ("images", File bytes_old)])].

(** The answers path of the source is a directory. *)
Definition fs_json_source_dir : node :=
  dir_of [("Historia", dir_of [("correct_answers.json", dir_of []);
                                ("images", dir_of [("a.png", File bytes_a)])]);
          ("site", dir_of [("update_historia.py", File [])])].

(** The source image path is taken by a regular file. *)
Definition fs_images_source_is_file : node :=
  dir_of [("Historia", dir_of [("images", File bytes_a)]);
          ("site", dir_of [("update_historia.py", File []);
                           ("keep.txt", File bytes_old)])].

(** The script lives in a directory called Historia, next to nothing else:
    source and destination are the same directory. *)
Definition historia : path := ["Historia"].

Definition fs_same_dir : node :=
  dir_of [("Historia", dir_of [("update_historia.py", File []);
                                ("correct_answers.json", File bytes_j);
                                ("images", dir_of [("a.png", File bytes_a)])])].

(** Images in the source and no answers file; a destination without image
    directory. *)
Definition fs_images_only : node :=
  dir_of [("Historia", dir_of [("images", dir_of [("a.png", File bytes_a);
                                                   ("sub", dir_of [])])]);
          ("site", dir_of [("update_historia.py", File []);
                           ("correct_answers.json", File bytes_old)])].

(** ** A typical run *)

Example run_typical_exit : run_exit site fs_typical = 0.
Proof. vm_compute. reflexivity. Qed.

Example run_typical_fs :
  run_fs site fs_typical =
  dir_of [("Historia", dir_of [("correct_answers.json", File bytes_j);
                                ("images", dir_of [("a.png", File bytes_a);
                                                   ("b.png", File bytes_b);
                                                   (".hidden", File bytes_b);
                                                   ("sub", dir_of [("c.png", File bytes_a)])])]);
          ("site", dir_of [("update_historia.py", File []);
                           ("keep.txt", File bytes_old);
                           ("correct_answers.json", File bytes_j);
                           ("images", dir_of [("a.png", File bytes_a);
                                              ("b.png", File bytes_b);
                                              (".hidden", File bytes_b)])])].
Proof. vm_compute. reflexivity. Qed.

(** ** The file system tree: reading after writing *)

Section Tree.

Implicit Types (t c : node) (p q : path) (d : list byte).

Lemma resolve_app t p q :
  resolve t (p ++ q) = resolve t p ≫= fun c => resolve c q.
Proof.
  revert t. induction p as [|n p IH]; intros t; simpl; [done|].
  destruct t as [|es]; [done|]. destruct (es !! n); [apply IH | done].
Qed.

Lemma resolve_file_below t p d x q :
  resolve t p = Some (File d) -> resolve t (p ++ x :: q) = None.
Proof. intros H. rewrite resolve_app, H. reflexivity. Qed.

Lemma write_file_resolve_eq p d t t' :
  write_file p d t = inr t' -> resolve t' p = Some (File d).
Proof.
  revert t t'. induction p as [|n p IH]; intros t t' H; simpl in *.
  - destruct t; congruence.
  - destruct t as [|es]; [done|].
    destruct (es !! n) as [c|] eqn:E.
    + destruct (write_file p d c) as [e|c'] eqn:W; [done|].
      injection H as <-. simpl. rewrite lookup_insert_eq. eauto.
    + destruct p; [|done]. injection H as <-. simpl.
      by rewrite lookup_insert_eq.
Qed.

(** A write at [p] is seen only at [p] and at the directories above it. *)
Lemma write_file_resolve_ne p d t t' q :
  write_file p d t = inr t' -> ~ q `prefix_of` p -> resolve t' q = resolve t q.
Proof.
  revert t t' q. induction p as [|n p IH]; intros t t' q H Hq; simpl in *.
  - destruct q as [|m q]; [destruct Hq; apply prefix_nil|].
    destruct t; [|done]. injection H as <-. reflexivity.
  - destruct q as [|m q]; [destruct Hq; apply prefix_nil|].
    destruct t as [|es]; [done|].
    destruct (decide (m = n)) as [->|Hne].
    + assert (Hq' : ~ q `prefix_of` p) by (intros Hp; apply Hq, prefix_cons, Hp).
      destruct (es !! n) as [c|] eqn:E.
      * destruct (write_file p d c) as [e|c'] eqn:W; [done|].
        injection H as <-. simpl. rewrite lookup_insert_eq, E. eauto.
      * destruct p; [|done]. injection H as <-. simpl.
        rewrite lookup_insert_eq, E.
        destruct q; [destruct Hq'; apply prefix_nil | reflexivity].
    + assert (forall c', resolve (Dir (<[n:=c']> es)) (m :: q) = resolve (Dir es) (m :: q)) as Hins.
      { intros c'. simpl. by rewrite lookup_insert_ne. }
      destruct (es !! n) as [c|] eqn:E.
      * destruct (write_file p d c) as [e|c'] eqn:W; [done|].
        injection H as <-. apply Hins.
      * destruct p; [|done]. injection H as <-. apply Hins.
Qed.

(** Everything strictly above a written path is a directory, before and after. *)
Lemma write_file_above p d t t' q :
  write_file p d t = inr t' -> q `prefix_of` p -> q <> p ->
  isdir t q = true /\ isdir t' q = true.
Proof.
  unfold isdir.
  revert t t' q. induction p as [|n p IH]; intros t t' q H Hq Hne; simpl in *.
  - apply prefix_nil_inv in Hq. congruence.
  - destruct t as [|es]; [done|].
    destruct q as [|m q].
    + simpl. split; [done|].
      destruct (es !! n) as [c|].
      * destruct (write_file p d c); [done|]. by injection H as <-.
      * destruct p; [|done]. by injection H as <-.
    + pose proof (prefix_cons_inv_1 _ _ _ _ Hq) as ->.
      apply prefix_cons_inv_2 in Hq.
      assert (q <> p) by congruence.
      destruct (es !! n) as [c|] eqn:E.
      * destruct (write_file p d c) as [e|c'] eqn:W; [done|].
        injection H as <-. simpl. rewrite lookup_insert_eq, E. eauto.
      * destruct p; [|done]. apply prefix_nil_inv in Hq. congruence.
Qed.

(** The path written to was a regular file or absent, never a directory. *)
Lemma write_file_not_dir p d t t' :
  write_file p d t = inr t' -> isdir t p = false.
Proof.
  unfold isdir.
  revert t t'. induction p as [|n p IH]; intros t t' H; simpl in *.
  - by destruct t.
  - destruct t as [|es]; [done|].
    destruct (es !! n) as [c|] eqn:E; [|done].
    destruct (write_file p d c) as [e|c'] eqn:W; [done|]. eauto.
Qed.

Lemma write_file_isdir p d t t' q :
  write_file p d t = inr t' -> isdir t' q = isdir t q.
Proof.
  intros H. destruct (decide (q = p)) as [->|Hne].
  - rewrite (write_file_not_dir _ _ _ _ H). unfold isdir.
    by rewrite (write_file_resolve_eq _ _ _ _ H).
  - destruct (decide (q `prefix_of` p)) as [Hp|Hp].
    + destruct (write_file_above _ _ _ _ _ H Hp Hne) as [-> ->]. done.
    + unfold isdir. by rewrite (write_file_resolve_ne _ _ _ _ _ H Hp).
Qed.

(** Other regular files keep their content. *)
Lemma write_file_other_file p d t t' q d0 :
  write_file p d t = inr t' -> q <> p ->
  resolve t q = Some (File d0) -> resolve t' q = Some (File d0).
Proof.
  intros H Hne Hq. destruct (decide (q `prefix_of` p)) as [Hp|Hp].
  - destruct (write_file_above _ _ _ _ _ H Hp Hne) as [Hd _].
    unfold isdir in Hd. by rewrite Hq in Hd.
  - by rewrite (write_file_resolve_ne _ _ _ _ _ H Hp).
Qed.

(** Nothing disappears. *)
Lemma write_file_exists p d t t' q :
  write_file p d t = inr t' -> exists_at t q = true -> exists_at t' q = true.
Proof.
  intros H. unfold exists_at. destruct (decide (q = p)) as [->|Hne].
  - by rewrite (write_file_resolve_eq _ _ _ _ H).
  - destruct (decide (q `prefix_of` p)) as [Hp|Hp].
    + destruct (write_file_above _ _ _ _ _ H Hp Hne) as [_ Hd].
      unfold isdir in Hd. by destruct (resolve t' q).
    + by rewrite (write_file_resolve_ne _ _ _ _ _ H Hp).
Qed.

(** Writing what is already there changes nothing. *)
Lemma write_file_id p d t :
  resolve t p = Some (File d) -> write_file p d t = inr t.
Proof.
  revert t. induction p as [|n p IH]; intros t H; simpl in *.
  - by injection H as ->.
  - destruct t as [|es]; [done|].
    destruct (es !! n) as [c|] eqn:E; [|done].
    rewrite (IH _ H). by rewrite insert_id.
Qed.

End Tree.

Section TreeMkdir.

Implicit Types (t c : node) (p q : path) (d : list byte).

Lemma mkdir_p_above p t t' q :
  mkdir_p p t = inr t' -> q `prefix_of` p -> isdir t' q = true.
Proof.
  unfold isdir.
  revert t t' q. induction p as [|n p IH]; intros t t' q H Hq; simpl in *.
  - apply prefix_nil_inv in Hq as ->. destruct t; [done|]. by injection H as <-.
  - destruct t as [|es]; [done|].
    destruct (mkdir_p p (default (Dir ∅) (es !! n))) as [e|c'] eqn:W; [done|].
    injection H as <-. destruct q as [|m q]; [done|].
    pose proof (prefix_cons_inv_1 _ _ _ _ Hq) as ->.
    apply prefix_cons_inv_2 in Hq. simpl. rewrite lookup_insert_eq. eauto.
Qed.

Lemma mkdir_p_isdir p t t' : mkdir_p p t = inr t' -> isdir t' p = true.
Proof. intros H. by apply (mkdir_p_above _ _ _ _ H). Qed.

(** What lies on the way to a created directory was not a regular file. *)
Lemma mkdir_p_above_before p t t' q :
  mkdir_p p t = inr t' -> q `prefix_of` p -> isfile t q = false.
Proof.
  unfold isfile.
  revert t t' q. induction p as [|n p IH]; intros t t' q H Hq; simpl in *.
  - apply prefix_nil_inv in Hq as ->. by destruct t.
  - destruct t as [|es]; [done|]. destruct q as [|m q]; [done|].
    pose proof (prefix_cons_inv_1 _ _ _ _ Hq) as ->.
    apply prefix_cons_inv_2 in Hq. simpl.
    destruct (mkdir_p p (default (Dir ∅) (es !! n))) as [e|c'] eqn:W; [done|].
    destruct (es !! n) as [c|] eqn:E; [|done]. simpl in W. eauto.
Qed.

Lemma mkdir_p_resolve_ne p t t' q :
  mkdir_p p t = inr t' -> ~ q `prefix_of` p -> resolve t' q = resolve t q.
Proof.
  revert t t' q. induction p as [|n p IH]; intros t t' q H Hq; simpl in *.
  - destruct t; [done|]. by injection H as <-.
  - destruct q as [|m q]; [destruct Hq; apply prefix_nil|].
    destruct t as [|es]; [done|].
    destruct (mkdir_p p (default (Dir ∅) (es !! n))) as [e|c'] eqn:W; [done|].
    injection H as <-. simpl.
    destruct (decide (m = n)) as [->|Hne]; [|by rewrite lookup_insert_ne].
    assert (Hq' : ~ q `prefix_of` p) by (intros Hp; apply Hq, prefix_cons, Hp).
    rewrite lookup_insert_eq, (IH _ _ _ W Hq').
    destruct (es !! n) as [c|]; [done|]. simpl.
    destruct q; [destruct Hq'; apply prefix_nil | done].
Qed.

Lemma mkdir_p_file p t t' q d0 :
  mkdir_p p t = inr t' ->
  resolve t q = Some (File d0) -> resolve t' q = Some (File d0).
Proof.
  intros H Hq. destruct (decide (q `prefix_of` p)) as [Hp|Hp].
  - pose proof (mkdir_p_above_before _ _ _ _ H Hp) as Hf.
    unfold isfile in Hf. by rewrite Hq in Hf.
  - by rewrite (mkdir_p_resolve_ne _ _ _ _ H Hp).
Qed.

Lemma mkdir_p_exists p t t' q :
  mkdir_p p t = inr t' -> exists_at t q = true -> exists_at t' q = true.
Proof.
  intros H. unfold exists_at. destruct (decide (q `prefix_of` p)) as [Hp|Hp].
  - pose proof (mkdir_p_above _ _ _ _ H Hp) as Hd.
    unfold isdir in Hd. by destruct (resolve t' q).
  - by rewrite (mkdir_p_resolve_ne _ _ _ _ H Hp).
Qed.

Lemma mkdir_p_isdir_mono p t t' q :
  mkdir_p p t = inr t' -> isdir t q = true -> isdir t' q = true.
Proof.
  intros H. destruct (decide (q `prefix_of` p)) as [Hp|Hp].
  - intros _. by apply (mkdir_p_above _ _ _ _ H).
  - unfold isdir. by rewrite (mkdir_p_resolve_ne _ _ _ _ H Hp).
Qed.

End TreeMkdir.

(** ** [shutil.copy2] on the tree *)

Section Copy2.

Implicit Types (t : node) (p q src dst : path) (d : list byte).

Lemma copy2_fs_inv src dst t t' :
  copy2_fs src dst t = inr t' ->
  exists d, resolve t src = Some (File d)
            /\ src <> copy_target t src dst
            /\ write_file (copy_target t src dst) d t = inr t'.
Proof.
  unfold copy2_fs, samefile, exists_at. intros H.
  destruct (resolve t src) as [[d|es]|] eqn:E.
  - exists d. split; [done|].
    case_bool_decide as Heq; simpl in H; [done|]. done.
  - by destruct (bool_decide _).
  - by destruct (bool_decide _).
Qed.

Lemma copy2_fs_intro src dst t d :
  resolve t src = Some (File d) -> src <> copy_target t src dst ->
  copy2_fs src dst t = write_file (copy_target t src dst) d t.
Proof.
  intros E Hne. unfold copy2_fs, samefile. rewrite E.
  by rewrite bool_decide_eq_false_2.
Qed.

(** A file cannot be copied onto itself. *)
Lemma copy2_fs_self p t t' : copy2_fs p p t <> inr t'.
Proof.
  intros H. destruct (copy2_fs_inv _ _ _ _ H) as (d & E & Hne & _).
  apply Hne. unfold copy_target, isdir. by rewrite E.
Qed.

Lemma copy2_fs_target src dst t t' d :
  copy2_fs src dst t = inr t' -> resolve t src = Some (File d) ->
  resolve t' (copy_target t src dst) = Some (File d).
Proof.
  intros H E. destruct (copy2_fs_inv _ _ _ _ H) as (d' & E' & _ & W).
  rewrite E in E'. injection E' as <-. by apply write_file_resolve_eq in W.
Qed.

Lemma copy2_fs_isdir src dst t t' q :
  copy2_fs src dst t = inr t' -> isdir t' q = isdir t q.
Proof.
  intros H. destruct (copy2_fs_inv _ _ _ _ H) as (d & _ & _ & W).
  by apply (write_file_isdir _ _ _ _ _ W).
Qed.

Lemma copy2_fs_exists src dst t t' q :
  copy2_fs src dst t = inr t' -> exists_at t q = true -> exists_at t' q = true.
Proof.
  intros H. destruct (copy2_fs_inv _ _ _ _ H) as (d & _ & _ & W).
  by apply (write_file_exists _ _ _ _ _ W).
Qed.

Lemma copy2_fs_other_file src dst t t' q d0 :
  copy2_fs src dst t = inr t' -> q <> copy_target t src dst ->
  resolve t q = Some (File d0) -> resolve t' q = Some (File d0).
Proof.
  intros H. destruct (copy2_fs_inv _ _ _ _ H) as (d & _ & _ & W).
  by apply (write_file_other_file _ _ _ _ _ _ W).
Qed.

Lemma copy2_fs_resolve_ne src dst t t' q :
  copy2_fs src dst t = inr t' -> ~ q `prefix_of` copy_target t src dst ->
  resolve t' q = resolve t q.
Proof.
  intros H. destruct (copy2_fs_inv _ _ _ _ H) as (d & _ & _ & W).
  by apply (write_file_resolve_ne _ _ _ _ _ W).
Qed.

(** What [copy2_fs src dst] does depends on the source, on whether [dst] is
    a directory, and on the target only. *)
Lemma copy2_fs_noop src dst t u d :
  resolve t src = Some (File d) -> src <> copy_target t src dst ->
  resolve u src = Some (File d) -> isdir u dst = isdir t dst ->
  resolve u (copy_target t src dst) = Some (File d) ->
  copy2_fs src dst u = inr u.
Proof.
  intros E Hne Eu Hd Ht.
  assert (copy_target u src dst = copy_target t src dst) as Htg
    by (unfold copy_target; by rewrite Hd).
  rewrite (copy2_fs_intro _ _ _ d), Htg; [|done|by rewrite Htg].
  by apply write_file_id.
Qed.

(** Copying again right after a copy changes nothing. *)
Lemma copy2_fs_again src dst t t' :
  copy2_fs src dst t = inr t' -> copy2_fs src dst t' = inr t'.
Proof.
  intros H. destruct (copy2_fs_inv _ _ _ _ H) as (d & E & Hne & W).
  apply (copy2_fs_noop _ _ t _ d); try done.
  - by apply (write_file_other_file _ _ _ _ _ _ W).
  - by apply (write_file_isdir _ _ _ _ _ W).
  - by apply (write_file_resolve_eq _ _ _ _ W).
Qed.

End Copy2.

(** ** The paths of the script *)

Section Paths.

Implicit Types (base p q s w : path) (n x : string).

Lemma name_snoc p n : name (p ++ [n]) = n.
Proof. apply last_last. Qed.

Lemma historia_dir_cases base :
  (base = [] /\ historia_dir base = ["Historia"]) \/
  (exists b y, base = b ++ [y] /\ historia_dir base = b ++ ["Historia"]).
Proof.
  unfold historia_dir, parent.
  induction base as [|y b _] using rev_ind; [by left|right].
  exists b, y. by rewrite removelast_last.
Qed.

(** Unless the script itself lives in a directory called Historia, nothing
    under the source root lies above a path that is written in the
    destination root, whose first component below it is
    correct_answers.json or images. *)
Lemma source_apart base s x w :
  historia_dir base <> base -> x <> "Historia" ->
  ~ (historia_dir base ++ s) `prefix_of` (base ++ x :: w).
Proof.
  intros Hne Hx Hp.
  destruct (historia_dir_cases base) as [[-> Hh]|(b & y & -> & Hh)];
    rewrite Hh in *.
  - simpl in Hp. by apply prefix_cons_inv_1 in Hp.
  - rewrite <- !app_assoc in Hp. apply prefix_app_inv in Hp. simpl in Hp.
    apply prefix_cons_inv_1 in Hp. congruence.
Qed.

Lemma json_target t base :
  copy_target t (source_json base) (dest_json base) = base ++ ["correct_answers.json"]
  \/ copy_target t (source_json base) (dest_json base)
     = base ++ ["correct_answers.json"; "correct_answers.json"].
Proof.
  unfold copy_target, source_json, dest_json, website_dir.
  destruct (isdir t _); [right|by left].
  by rewrite name_snoc, <- app_assoc.
Qed.

Lemma image_target t base n :
  copy_target t (source_images base ++ [n]) (dest_images base ++ [n]) = base ++ ["images"; n]
  \/ copy_target t (source_images base ++ [n]) (dest_images base ++ [n])
     = base ++ ["images"; n; n].
Proof.
  unfold copy_target, dest_images, website_dir.
  destruct (isdir t _); [right|left]; by rewrite ?name_snoc, <- !app_assoc.
Qed.

Lemma same_dir_json base :
  historia_dir base = base -> source_json base = dest_json base.
Proof. unfold source_json, dest_json, website_dir. by intros ->. Qed.

Lemma same_dir_images base :
  historia_dir base = base -> source_images base = dest_images base.
Proof. unfold source_images, dest_images, website_dir. by intros ->. Qed.

End Paths.

(** ** The changes a run makes to the file system *)

Section Steps.

Variable base : path.
Implicit Types (J : Prop) (N : string -> Prop) (t : node) (q s : path).

Lemma step_weaken J N J' N' t t' :
  (J -> J') -> (forall n, N n -> N' n) ->
  step base J N t t' -> step base J' N' t t'.
Proof.
  intros HJ HN [H1 H2|H1 H2 H3|n H1 H2 H3];
    [apply step_json|apply step_mkdir|apply (step_image _ _ _ _ _ n)]; auto.
Qed.

Lemma steps_weaken J N J' N' t t' :
  (J -> J') -> (forall n, N n -> N' n) ->
  steps base J N t t' -> steps base J' N' t t'.
Proof.
  intros HJ HN. apply rtc_subrel. intros ? ?. by apply step_weaken.
Qed.

(** The source root is never written to. *)
Lemma step_source J N t t' s :
  step base J N t t' ->
  resolve t' (historia_dir base ++ s) = resolve t (historia_dir base ++ s).
Proof.
  intros Hst. destruct (decide (historia_dir base = base)) as [Heq|Hne].
  - exfalso. destruct Hst as [_ H|H1 H2 _|n _ _ H].
    + rewrite (same_dir_json _ Heq) in H. by apply copy2_fs_self in H.
    + rewrite (same_dir_images _ Heq) in H1. congruence.
    + rewrite (same_dir_images _ Heq) in H. by apply copy2_fs_self in H.
  - destruct Hst as [_ H|_ _ H|n _ _ H].
    + apply (copy2_fs_resolve_ne _ _ _ _ _ H).
      destruct (json_target t base) as [-> | ->]; by apply source_apart.
    + apply (mkdir_p_resolve_ne _ _ _ _ H).
      unfold dest_images, website_dir. by apply source_apart.
    + apply (copy2_fs_resolve_ne _ _ _ _ _ H).
      destruct (image_target t base n) as [-> | ->]; by apply source_apart.
Qed.

Lemma steps_source J N t t' s :
  steps base J N t t' ->
  resolve t' (historia_dir base ++ s) = resolve t (historia_dir base ++ s).
Proof.
  induction 1 as [|t u t' Hst _ IH]; [done|].
  by rewrite IH, (step_source _ _ _ _ _ Hst).
Qed.

(** Nothing is deleted, and nothing changes its kind. *)
Lemma step_exists J N t t' q :
  step base J N t t' -> exists_at t q = true -> exists_at t' q = true.
Proof.
  intros [_ H|_ _ H|n _ _ H].
  - by apply (copy2_fs_exists _ _ _ _ _ H).
  - by apply (mkdir_p_exists _ _ _ _ H).
  - by apply (copy2_fs_exists _ _ _ _ _ H).
Qed.

Lemma steps_exists J N t t' q :
  steps base J N t t' -> exists_at t q = true -> exists_at t' q = true.
Proof. induction 1; eauto using step_exists. Qed.

Lemma step_isdir_mono J N t t' q :
  step base J N t t' -> isdir t q = true -> isdir t' q = true.
Proof.
  intros [_ H|_ _ H|n _ _ H].
  - by rewrite (copy2_fs_isdir _ _ _ _ _ H).
  - by apply (mkdir_p_isdir_mono _ _ _ _ H).
  - by rewrite (copy2_fs_isdir _ _ _ _ _ H).
Qed.

Lemma steps_isdir_mono J N t t' q :
  steps base J N t t' -> isdir t q = true -> isdir t' q = true.
Proof. induction 1; eauto using step_isdir_mono. Qed.

(** Only the creation of the image directory makes a directory. *)
Lemma step_isdir J N t t' q :
  step base J N t t' -> ~ q `prefix_of` dest_images base ->
  isdir t' q = isdir t q.
Proof.
  intros [_ H|_ _ H|n _ _ H] Hq.
  - by apply (copy2_fs_isdir _ _ _ _ _ H).
  - unfold isdir. by rewrite (mkdir_p_resolve_ne _ _ _ _ H Hq).
  - by apply (copy2_fs_isdir _ _ _ _ _ H).
Qed.

Lemma steps_isdir J N t t' q :
  steps base J N t t' -> ~ q `prefix_of` dest_images base ->
  isdir t' q = isdir t q.
Proof.
  induction 1 as [|t u t' Hst _ IH]; [done|]. intros Hq.
  by rewrite IH, (step_isdir _ _ _ _ _ Hst).
Qed.

Lemma step_file J N t t' q d :
  step base J N t t' -> off_targets base J N q ->
  resolve t q = Some (File d) -> resolve t' q = Some (File d).
Proof.
  intros [HJ H|_ _ H|n Hn _ H] [Hj Hi].
  - apply (copy2_fs_other_file _ _ _ _ _ _ H).
    destruct (Hj HJ). by destruct (json_target t base) as [-> | ->].
  - by apply (mkdir_p_file _ _ _ _ _ H).
  - apply (copy2_fs_other_file _ _ _ _ _ _ H).
    destruct (Hi n Hn). by destruct (image_target t base n) as [-> | ->].
Qed.

Lemma steps_file J N t t' q d :
  steps base J N t t' -> off_targets base J N q ->
  resolve t q = Some (File d) -> resolve t' q = Some (File d).
Proof. induction 1; eauto using step_file. Qed.

End Steps.

(** ** Running the monad *)

Section Exec.

Lemma for_rel {A} (R : relation world) (xs : list A) (body : A -> M unit) :
  Reflexive R -> Transitive R ->
  (forall x w, x ∈ xs -> R w (body x w).2) ->
  forall w, R w (for_ xs body w).2.
Proof.
  intros HR HT. induction xs as [|x xs IH]; intros Hb w; simpl.
  - apply HR.
  - unfold bind. pose proof (Hb x w (list_elem_of_here _ _)) as Hx.
    destruct (body x w) as [[e|[]] w1]; simpl in *; [done|].
    etrans; [exact Hx|]. apply IH. intros y v Hy. apply Hb. by right.
Qed.

(** A loop that ran to its end ran the body on each element. *)
Lemma for_split {A} (xs : list A) (body : A -> M unit) w w' x :
  for_ xs body w = (inr tt, w') -> x ∈ xs ->
  exists l1 l2 wa wb,
    xs = l1 ++ x :: l2
    /\ for_ l1 body w = (inr tt, wa)
    /\ body x wa = (inr tt, wb)
    /\ for_ l2 body wb = (inr tt, w').
Proof.
  revert w. induction xs as [|a xs IH]; intros w H Hx.
  - by apply elem_of_nil in Hx.
  - simpl in H. unfold bind in H.
    destruct (body a w) as [[e|[]] w1] eqn:E; [done|].
    apply elem_of_cons in Hx as [->|Hx].
    + by exists [], xs, w, w1.
    + destruct (IH _ H Hx) as (l1 & l2 & wa & wb & -> & H1 & H2 & H3).
      exists (a :: l1), l2, wa, wb. repeat split; try done.
      simpl. unfold bind. by rewrite E.
Qed.

End Exec.

(** ** Directory listings *)

Section Listdir.

Implicit Types (t : node) (p i : path) (n : string).

Lemma resolve_snoc_dir t p n es :
  resolve t p = Some (Dir es) -> resolve t (p ++ [n]) = es !! n.
Proof.
  intros H. rewrite resolve_app, H. simpl. by destruct (es !! n).
Qed.

Lemma listdir_fmap t p es :
  resolve t p = Some (Dir es) ->
  listdir t p = (fun n => p ++ [n]) <$> (map_to_list es).*1.
Proof.
  intros H. unfold listdir. rewrite H.
  by rewrite <- list_fmap_compose.
Qed.

(** [glob] yields exactly the entries of the directory, each once. *)
Lemma elem_of_listdir t p n :
  p ++ [n] ∈ listdir t p <-> isdir t p = true /\ exists_at t (p ++ [n]) = true.
Proof.
  unfold isdir, exists_at. destruct (resolve t p) as [[d|es]|] eqn:E.
  - unfold listdir. rewrite E. split; [by intros ?%elem_of_nil|by intros []].
  - rewrite (listdir_fmap _ _ _ E), (resolve_snoc_dir _ _ _ _ E).
    rewrite list_elem_of_fmap. split.
    + intros (m & Hm & Hin). apply app_inj_tail in Hm as [_ <-].
      apply list_elem_of_fmap in Hin as ([k v] & -> & Hin).
      apply elem_of_map_to_list in Hin. simpl. by rewrite Hin.
    + intros [_ H]. exists n. split; [done|].
      destruct (es !! n) as [c|] eqn:En; [|done].
      apply list_elem_of_fmap. exists (n, c). split; [done|].
      by apply elem_of_map_to_list.
  - unfold listdir. rewrite E. split; [by intros ?%elem_of_nil|by intros []].
Qed.

Lemma listdir_inv t p i : i ∈ listdir t p -> exists n, i = p ++ [n].
Proof.
  unfold listdir. destruct (resolve t p) as [[d|es]|]; try by intros ?%elem_of_nil.
  intros ([k v] & -> & _)%list_elem_of_fmap. by exists k.
Qed.

Lemma NoDup_listdir t p : NoDup (listdir t p).
Proof.
  destruct (resolve t p) as [[d|es]|] eqn:E;
    try (unfold listdir; rewrite E; by apply NoDup_nil).
  rewrite (listdir_fmap _ _ _ E). apply NoDup_fmap_2.
  - intros a b H. by apply app_inj_tail in H as [_ ?].
  - apply NoDup_fst_map_to_list.
Qed.

Lemma listdir_ext t u p :
  resolve u p = resolve t p -> listdir u p = listdir t p.
Proof. unfold listdir. by intros ->. Qed.

End Listdir.

(** ** The blocks of the script, run on a world *)

Section Blocks.

Variable base : path.

Lemma traced_run c op w :
  traced c op w =
  match op (w_fs w) with
  | inr t' => (inr tt, World t' (w_out w) (w_log w ++ [(c, w_fs w)]))
  | inl e => (inl e, World (w_fs w) (w_out w) (w_log w ++ [(c, w_fs w)]))
  end.
Proof. reflexivity. Qed.

Lemma check_historia_run w :
  check_historia base w =
  if exists_at (w_fs w) (historia_dir base) then (inr tt, w)
  else (inl (SystemExit 1), printed (msg_no_historia base) w).
Proof.
  unfold check_historia, bind, path_exists.
  by destruct (exists_at _ _).
Qed.

Lemma update_json_run w :
  update_json base w =
  if exists_at (w_fs w) (source_json base)
  then copy2 (source_json base) (dest_json base)
         (printed (msg_copy (source_json base) (dest_json base)) w)
  else (inr tt, printed (msg_no_json base) w).
Proof.
  unfold update_json, bind, path_exists.
  by destruct (exists_at _ _).
Qed.

Lemma copy_item_run item w :
  copy_item base item w =
  if isfile (w_fs w) item
  then copy2 item (dest_images base ++ [name item])
         (printed (msg_copy item (dest_images base ++ [name item])) w)
  else (inr tt, w).
Proof.
  unfold copy_item, bind, is_file.
  by destruct (isfile _ _).
Qed.

Lemma update_images_run w :
  update_images base w =
  if exists_at (w_fs w) (source_images base)
  then match ensure_dest_images base w with
       | (inr _, w1) => for_ (listdir (w_fs w1) (source_images base)) (copy_item base) w1
       | (inl e, w1) => (inl e, w1)
       end
  else (inr tt, printed (msg_no_images base) w).
Proof.
  unfold update_images, ensure_dest_images, bind, path_exists, glob.
  destruct (exists_at _ (source_images base)); simpl; [|done].
  destruct (exists_at _ (dest_images base)); simpl; [done|].
  by destruct (mkdir _ _) as [[e|[]] w1].
Qed.

Lemma main_run w :
  main base w =
  match check_historia base w with
  | (inr _, w0) =>
      match update_json base w0 with
      | (inr _, w1) =>
          match update_images base w1 with
          | (inr _, w2) => (inr tt, printed msg_done w2)
          | (inl e, w2) => (inl e, w2)
          end
      | (inl e, w1) => (inl e, w1)
      end
  | (inl e, w0) => (inl e, w0)
  end.
Proof. reflexivity. Qed.

End Blocks.

(** ** What a run does, as an invariant of the execution *)

Section Evolves.

Variable base : path.
Implicit Types (J : Prop) (N : string -> Prop) (w : world).

#[local] Instance evolves_refl J N : Reflexive (evolves base J N).
Proof.
  intros w. split; [apply rtc_refl|]. split; [exists []; by rewrite app_nil_r|].
  exists []. split; [by rewrite app_nil_r|]. by intros c s ?%elem_of_nil.
Qed.

#[local] Instance evolves_trans J N : Transitive (evolves base J N).
Proof.
  intros w1 w2 w3 (S12 & [o1 O1] & l1 & L1 & H1) (S23 & [o2 O2] & l2 & L2 & H2).
  split; [by etrans|]. split.
  { exists (o1 ++ o2). by rewrite O2, O1, app_assoc. }
  exists (l1 ++ l2). split; [by rewrite L2, L1, app_assoc|].
  intros c s [Hin|Hin]%elem_of_app.
  - destruct (H1 _ _ Hin) as (? & ? & ?). repeat split; try done. by etrans.
  - destruct (H2 _ _ Hin) as (? & ? & ?). repeat split; try done. by etrans.
Qed.

Lemma evolves_printed J N s w : evolves base J N w (printed s w).
Proof.
  split; [apply rtc_refl|]. split; [by exists [s]|].
  exists []. split; [by rewrite app_nil_r|]. by intros ? ? ?%elem_of_nil.
Qed.

Lemma evolves_traced J N c w :
  program_call base J N c (w_fs w) ->
  (forall t', call_fs c (w_fs w) = inr t' -> step base J N (w_fs w) t') ->
  evolves base J N w (traced c (call_fs c) w).2.
Proof.
  intros Hc Hs. rewrite traced_run.
  assert (forall t', (t' = w_fs w \/ step base J N (w_fs w) t') ->
            evolves base J N w (World t' (w_out w) (w_log w ++ [(c, w_fs w)]))) as Hev.
  { intros t' Ht.
    assert (steps base J N (w_fs w) t') as St
      by (destruct Ht as [->|Ht]; [apply rtc_refl|by apply rtc_once]).
    split; [done|]. split; [exists []; by rewrite app_nil_r|].
    eexists. split; [done|].
    intros c' s [= -> ->]%list_elem_of_singleton. by repeat split. }
  destruct (call_fs c (w_fs w)) as [e|t'] eqn:E; simpl; apply Hev; auto.
Qed.

Lemma evolves_update_json N w :
  evolves base True N w (update_json base w).2.
Proof.
  rewrite update_json_run.
  destruct (exists_at _ _) eqn:E; simpl; [|apply evolves_printed].
  etrans; [apply evolves_printed|].
  apply (evolves_traced _ _ (Copy _ _)).
  - left. auto.
  - intros t' H. by apply step_json.
Qed.

Lemma evolves_copy_item J N n w :
  N n -> evolves base J N w (copy_item base (source_images base ++ [n]) w).2.
Proof.
  intros Hn. rewrite copy_item_run, name_snoc.
  destruct (isfile _ _) eqn:E; simpl; [|reflexivity].
  etrans; [apply evolves_printed|].
  apply (evolves_traced _ _ (Copy _ _)).
  - right. right. exists n. auto.
  - intros t' H. by apply (step_image _ _ _ _ _ n).
Qed.

Lemma evolves_loop J N items w :
  (forall i, i ∈ items -> exists n, i = source_images base ++ [n] /\ N n) ->
  evolves base J N w (for_ items (copy_item base) w).2.
Proof.
  intros Hi. apply for_rel; try apply _.
  intros i v Hin. destruct (Hi _ Hin) as (n & -> & Hn).
  by apply evolves_copy_item.
Qed.

Lemma evolves_ensure J N w :
  exists_at (w_fs w) (source_images base) = true ->
  evolves base J N w (ensure_dest_images base w).2.
Proof.
  intros Hs. unfold ensure_dest_images.
  destruct (exists_at _ (dest_images base)) eqn:E; simpl; [reflexivity|].
  etrans; [apply evolves_printed|].
  apply (evolves_traced _ _ (Mkdir _)).
  - right. left. auto.
  - intros t' H. by apply step_mkdir.
Qed.

Lemma evolves_update_images J w :
  evolves base J (fun _ => True) w (update_images base w).2.
Proof.
  rewrite update_images_run.
  destruct (exists_at _ _) eqn:E; simpl; [|apply evolves_printed].
  pose proof (evolves_ensure J (fun _ => True) w E) as H1.
  destruct (ensure_dest_images base w) as [[e|[]] w1]; simpl in *; [done|].
  etrans; [exact H1|]. apply evolves_loop.
  intros i [n ->]%listdir_inv. eauto.
Qed.

Lemma evolves_main w :
  evolves base True (fun _ => True) w (main base w).2.
Proof.
  rewrite main_run, check_historia_run.
  destruct (exists_at _ _); simpl; [|apply evolves_printed].
  pose proof (evolves_update_json (fun _ => True) w) as H1.
  destruct (update_json base w) as [[e|[]] w1]; simpl in *; [done|].
  pose proof (evolves_update_images True w1) as H2.
  destruct (update_images base w1) as [[e|[]] w2]; simpl in *; [by etrans|].
  etrans; [exact H1|]. etrans; [exact H2|]. apply evolves_printed.
Qed.

End Evolves.

(** ** The source root *)

(** C1: when the source root Historia does not exist, the process exits with
    status 1, no copy or other mutating call is made and the file system is
    left exactly as it was; only the error line is printed. *)
Theorem C1_missing_source_root (base : path) (t : node) :
  exists_at t (historia_dir base) = false ->
  run_exit base t = 1
  /\ run_log base t = []
  /\ run_fs base t = t
  /\ run_out base t = [msg_no_historia base].
Proof.
  intros H. unfold run_exit, run_log, run_fs, run_out, run.
  rewrite main_run, check_historia_run. simpl. by rewrite H.
Qed.

Lemma C1_missing_source_root_witness :
  exists_at fs_no_source (historia_dir site) = false
  /\ run_exit site fs_no_source = 1
  /\ run_log site fs_no_source = []
  /\ run_fs site fs_no_source = fs_no_source
  /\ run_out site fs_no_source = [msg_no_historia site].
Proof.
  split; [reflexivity|].
  apply (C1_missing_source_root site fs_no_source). reflexivity.
Defined.

(** C10: the check of the source root is an existence check. When the path
    is taken by a regular file, the run does not stop with status 1: both
    sub-items are found missing, two warnings are printed, no call that
    could change the file system is made, and the status is 0. *)
Theorem C10_source_root_not_a_directory (base : path) (t : node) (d : list byte) :
  resolve t (historia_dir base) = Some (File d) ->
  run_exit base t = 0
  /\ run_exit base t <> 1
  /\ run_log base t = []
  /\ run_fs base t = t
  /\ run_out base t = [msg_no_json base; msg_no_images base; msg_done].
Proof.
  intros H.
  assert (exists_at t (historia_dir base) = true) as He
    by (unfold exists_at; by rewrite H).
  assert (forall x, exists_at t (historia_dir base ++ [x]) = false) as Hx
    by (intros x; unfold exists_at; by rewrite (resolve_file_below _ _ _ _ _ H)).
  unfold run_exit, run_log, run_fs, run_out, run.
  rewrite main_run, check_historia_run. simpl. rewrite He.
  rewrite update_json_run. simpl. unfold source_json. rewrite Hx.
  rewrite update_images_run. simpl. unfold source_images. rewrite Hx.
  simpl. done.
Qed.

Lemma C10_source_root_not_a_directory_witness :
  resolve fs_source_is_file (historia_dir site) = Some (File bytes_j)
  /\ run_exit site fs_source_is_file = 0
  /\ run_exit site fs_source_is_file <> 1
  /\ run_log site fs_source_is_file = []
  /\ run_fs site fs_source_is_file = fs_source_is_file
  /\ run_out site fs_source_is_file = [msg_no_json site; msg_no_images site; msg_done].
Proof.
  split; [reflexivity|].
  apply (C10_source_root_not_a_directory site fs_source_is_file bytes_j). reflexivity.
Defined.

(** ** What a run leaves alone *)

Section Frame.

Variable base : path.
Implicit Types (J : Prop) (N : string -> Prop) (t : node).

(** Only regular files of the source, as they were when the run began, are
    ever copied. *)
Lemma steps_refine J N t t' :
  steps base J N t t' ->
  steps base (J /\ isfile t (source_json base) = true)
    (fun n => N n /\ isfile t (source_images base ++ [n]) = true) t t'.
Proof.
  unfold steps. revert t'.
  apply (rtc_ind_r (fun t' =>
    rtc (step base (J /\ isfile t (source_json base) = true)
           (fun n => N n /\ isfile t (source_images base ++ [n]) = true)) t t'));
    [apply rtc_refl|].
  intros u u' Htu Hst IH. eapply rtc_r; [exact IH|].
  assert (forall p d, p = source_json base \/ (exists n, p = source_images base ++ [n]) ->
            resolve u p = Some (File d) -> isfile t p = true) as Hsrc.
  { intros p d Hp Hu.
    assert (exists s, p = historia_dir base ++ s) as [s ->].
    { destruct Hp as [->|[n ->]]; unfold source_json, source_images;
        rewrite <- ?app_assoc; eauto. }
    unfold isfile. by rewrite <- (steps_source _ _ _ _ _ _ Htu), Hu. }
  destruct Hst as [HJ H|H1 H2 H3|n Hn Hf H].
  - apply step_json; [|done]. split; [done|].
    destruct (copy2_fs_inv _ _ _ _ H) as (d & E & _). eapply Hsrc; eauto.
  - by apply step_mkdir.
  - apply (step_image _ _ _ _ _ n); [|done..]. split; [done|].
    destruct (copy2_fs_inv _ _ _ _ H) as (d & E & _). eapply Hsrc; eauto.
Qed.

Lemma run_steps t :
  steps base (isfile t (source_json base) = true)
    (fun n => isfile t (source_images base ++ [n]) = true) t (run_fs base t).
Proof.
  destruct (evolves_main base (World t [] [])) as [H _].
  apply steps_refine in H. eapply steps_weaken; [| |exact H]; simpl; tauto.
Qed.

(** A regular file directly in the destination root is kept unless it is
    the answers file and the source has one. *)
Lemma run_keeps_root_file t n d :
  (n = "correct_answers.json" -> isfile t (source_json base) = false) ->
  resolve t (base ++ [n]) = Some (File d) ->
  resolve (run_fs base t) (base ++ [n]) = Some (File d).
Proof.
  intros Hn. apply (steps_file _ _ _ _ _ _ _ (run_steps t)). split.
  - intros Hj. split; intros Heq%app_inv_head; [|done].
    injection Heq as ->. rewrite Hn in Hj; done.
  - intros m _. split; by intros Heq%app_inv_head.
Qed.

(** A regular file directly in the destination image directory is kept
    unless the source image directory has a regular file of that name. *)
Lemma run_keeps_image_file t n d :
  isfile t (source_images base ++ [n]) = false ->
  resolve t (dest_images base ++ [n]) = Some (File d) ->
  resolve (run_fs base t) (dest_images base ++ [n]) = Some (File d).
Proof.
  intros Hn. unfold dest_images, website_dir. rewrite <- app_assoc. simpl.
  apply (steps_file _ _ _ _ _ _ _ (run_steps t)). split.
  - intros _. split; by intros Heq%app_inv_head.
  - intros m Hm. split; intros Heq%app_inv_head; [|done].
    injection Heq as ->. congruence.
Qed.

Lemma run_keeps_everything t q :
  exists_at t q = true -> exists_at (run_fs base t) q = true.
Proof. apply (steps_exists _ _ _ _ _ _ (run_steps t)). Qed.

End Frame.

(** C9: the tool deletes nothing. A regular file directly in the destination
    root or directly in the destination image directory keeps its content
    through a run, however the run ends, when the source has no regular file
    to be copied under that name; and every path that existed before the run
    exists after it. *)
Theorem C9_no_deletion (base : path) (t : node) (q : path) (d : list byte) :
  resolve t q = Some (File d) ->
  (exists n, q = base ++ [n]
             /\ (n = "correct_answers.json" -> isfile t (source_json base) = false))
  \/ (exists n, q = dest_images base ++ [n]
                /\ isfile t (source_images base ++ [n]) = false) ->
  resolve (run_fs base t) q = Some (File d)
  /\ forall p, exists_at t p = true -> exists_at (run_fs base t) p = true.
Proof.
  intros Hq Hcase. split; [|apply run_keeps_everything].
  destruct Hcase as [(n & -> & Hn)|(n & -> & Hn)].
  - by apply run_keeps_root_file.
  - by apply run_keeps_image_file.
Qed.

Lemma C9_no_deletion_witness :
  resolve (run_fs site fs_stale) ["site"; "images"; "stale.png"] = Some (File bytes_old)
  /\ forall p, exists_at fs_stale p = true -> exists_at (run_fs site fs_stale) p = true.
Proof.
  apply (C9_no_deletion site fs_stale ["site"; "images"; "stale.png"] bytes_old).
  - reflexivity.
  - right. exists "stale.png". split; reflexivity.
Defined.

(** ** What a completed run has copied *)

Section Completed.

Variable base : path.
Implicit Types (t s : node) (n : string) (d : list byte).

Lemma exists_at_prefix t p q :
  exists_at t (p ++ q) = true -> exists_at t p = true.
Proof.
  unfold exists_at. rewrite resolve_app. by destruct (resolve t p).
Qed.

Lemma resolve_snoc_isdir t p n x :
  resolve t (p ++ [n]) = Some x -> isdir t p = true.
Proof.
  unfold isdir. rewrite resolve_app.
  destruct (resolve t p) as [[d|es]|]; simpl; done.
Qed.

Lemma traced_ok_inv c op w w' :
  traced c op w = (inr tt, w') ->
  exists t', op (w_fs w) = inr t'
             /\ w' = World t' (w_out w) (w_log w ++ [(c, w_fs w)]).
Proof.
  rewrite traced_run. destruct (op (w_fs w)) as [e|t']; [done|].
  intros [= <-]. eauto.
Qed.

(** The three blocks of a run that came to its end. *)
Lemma run_ok_inv t :
  (run base t).1 = inr tt ->
  exists_at t (historia_dir base) = true
  /\ exists w1 w2,
       update_json base (World t [] []) = (inr tt, w1)
       /\ update_images base w1 = (inr tt, w2)
       /\ (run base t).2 = printed msg_done w2.
Proof.
  unfold run. rewrite main_run, check_historia_run. simpl.
  destruct (exists_at t (historia_dir base)); simpl; [|done].
  destruct (update_json base _) as [[e|[]] w1] eqn:E1; simpl; [done|].
  destruct (update_images base w1) as [[e|[]] w2] eqn:E2; simpl; [done|].
  intros _. split; [done|]. by exists w1, w2.
Qed.

(** Every entry of the trace is a call of the script: the copy of an answers
    file that exists, the creation of the image directory, or the copy of a
    regular file of the source image directory, as the source was when the
    run began; it is issued in a file system reached from the initial one. *)
Lemma run_log_calls t c s :
  (c, s) ∈ run_log base t ->
  program_call base (exists_at t (source_json base) = true)
    (fun n => isfile t (source_images base ++ [n]) = true) c s
  /\ steps base True (fun _ => True) t s
  /\ steps base True (fun _ => True) s (run_fs base t).
Proof.
  intros Hin.
  destruct (evolves_main base (World t [] [])) as (_ & _ & l & Hl & H).
  simpl in Hl. unfold run_log, run in Hin. rewrite Hl in Hin.
  destruct (H _ _ Hin) as (Hc & S1 & S2). simpl in S1.
  split; [|by split].
  assert (forall x : path,
            resolve s (historia_dir base ++ x) = resolve t (historia_dir base ++ x))
    as Hsrc by (intros; by apply (steps_source _ _ _ _ _ _ S1)).
  destruct Hc as [(_ & -> & He)|[?|(n & _ & -> & Hf)]].
  - left. split; [|done].
    unfold exists_at, source_json in *. by rewrite <- Hsrc.
  - right. by left.
  - right. right. exists n. split; [|done].
    unfold isfile, source_images in *. rewrite <- app_assoc in *.
    by rewrite <- Hsrc.
Qed.

End Completed.

Section Copied.

Variable base : path.
Implicit Types (t s : node) (n : string) (d : list byte).

(** The answers file: after a run that came to its end, its content is at
    the target of the copy. *)
Lemma json_copied t :
  (run base t).1 = inr tt ->
  exists_at t (source_json base) = true ->
  exists d, resolve t (source_json base) = Some (File d)
    /\ resolve (run_fs base t) (copy_target t (source_json base) (dest_json base))
       = Some (File d).
Proof.
  intros Hok Hex. destruct (run_ok_inv _ _ Hok) as (_ & w1 & w2 & E1 & E2 & Ef).
  rewrite update_json_run in E1. simpl in E1. rewrite Hex in E1.
  apply traced_ok_inv in E1 as (t' & Hc & Hw1). simpl in Hc.
  assert (w_fs w1 = t') as Hfs by (by rewrite Hw1).
  destruct (copy2_fs_inv _ _ _ _ Hc) as (d & E & _ & W).
  exists d. split; [done|].
  unfold run_fs. rewrite Ef. simpl.
  pose proof (evolves_update_images base False w1) as [St _].
  rewrite E2, Hfs in St. simpl in St.
  apply (steps_file _ _ _ _ _ _ _ St).
  - split; [done|]. intros n _.
    destruct (json_target t base) as [-> | ->]; split; by intros Heq%app_inv_head.
  - by apply write_file_resolve_eq in W.
Qed.

(** An image: after a run that came to its end, every regular file of the
    source image directory has been the source of a successful copy, and
    its content is at the target of that copy. *)
Lemma image_copied t n d :
  (run base t).1 = inr tt ->
  resolve t (source_images base ++ [n]) = Some (File d) ->
  exists s s',
    (Copy (source_images base ++ [n]) (dest_images base ++ [n]), s) ∈ run_log base t
    /\ copy2_fs (source_images base ++ [n]) (dest_images base ++ [n]) s = inr s'
    /\ isdir s (dest_images base) = true
    /\ isdir s (dest_images base ++ [n]) = isdir t (dest_images base ++ [n])
    /\ resolve (run_fs base t)
         (copy_target s (source_images base ++ [n]) (dest_images base ++ [n]))
       = Some (File d).
Proof.
  intros Hok Hn. destruct (run_ok_inv _ _ Hok) as (_ & w1 & w2 & E1 & E2 & Ef).
  set (i := source_images base ++ [n]) in *.
  assert (forall x : path,
    source_images base ++ x = historia_dir base ++ "images" :: x) as Hsi
    by (intros; unfold source_images; by rewrite <- app_assoc).
  (* the answers step leaves the source as it is *)
  pose proof (evolves_update_json base (fun _ => True) (World t [] [])) as Ev1.
  rewrite E1 in Ev1. simpl in Ev1. destruct Ev1 as (S1 & _ & l1 & L1 & _).
  simpl in S1, L1.
  assert (resolve (w_fs w1) i = Some (File d)) as Hn1.
  { unfold i. rewrite Hsi, (steps_source _ _ _ _ _ _ S1), <- Hsi. done. }
  assert (exists_at (w_fs w1) (source_images base) = true) as Hex1.
  { apply (exists_at_prefix _ _ [n]). unfold exists_at. fold i. by rewrite Hn1. }
  rewrite update_images_run, Hex1 in E2.
  (* the destination directory is there when the loop starts *)
  pose proof (evolves_ensure base False (fun _ => True) w1 Hex1) as Ev2.
  destruct (ensure_dest_images base w1) as [[e|[]] wb] eqn:Eb; [done|].
  simpl in Ev2. destruct Ev2 as (S2 & _ & l2 & L2 & _).
  assert (resolve (w_fs wb) i = Some (File d)) as Hnb.
  { unfold i. rewrite Hsi, (steps_source _ _ _ _ _ _ S2), <- Hsi. done. }
  assert (i ∈ listdir (w_fs wb) (source_images base)) as Hin.
  { apply elem_of_listdir. split.
    - by apply (resolve_snoc_isdir _ _ n (File d)).
    - unfold exists_at. fold i. by rewrite Hnb. }
  pose proof (NoDup_listdir (w_fs wb) (source_images base)) as Hnd.
  destruct (for_split _ _ _ _ _ E2 Hin) as (k1 & k2 & wa & wc & Hk & F1 & Fi & F2).
  rewrite Hk in Hnd. apply NoDup_app in Hnd as (_ & _ & Hnd).
  apply NoDup_cons in Hnd as [Hnotin _].
  (* the part of the loop before [i] *)
  pose proof (evolves_loop base False (fun _ => True) k1 wb) as Ev3.
  rewrite F1 in Ev3. simpl in Ev3.
  destruct Ev3 as (S3 & _ & l3 & L3 & _).
  { intros j Hj.
    assert (j ∈ listdir (w_fs wb) (source_images base)) as Hj'
      by (rewrite Hk; apply elem_of_app; by left).
    apply listdir_inv in Hj' as [m ->]. eauto. }
  assert (resolve (w_fs wa) i = Some (File d)) as Hna.
  { unfold i. rewrite Hsi, (steps_source _ _ _ _ _ _ S3), <- Hsi. done. }
  (* the copy of [i] *)
  rewrite copy_item_run in Fi. unfold isfile in Fi. rewrite Hna in Fi.
  unfold i in Fi. rewrite name_snoc in Fi. fold i in Fi.
  apply traced_ok_inv in Fi as (tc & Hc & ->). simpl in Hc.
  (* the part of the loop after [i] *)
  pose proof (evolves_loop base False (fun m => source_images base ++ [m] ∈ k2) k2
                (World tc (w_out (printed (msg_copy i (dest_images base ++ [n])) wa))
                   (w_log (printed (msg_copy i (dest_images base ++ [n])) wa)
                    ++ [(Copy i (dest_images base ++ [n]),
                         w_fs (printed (msg_copy i (dest_images base ++ [n])) wa))])))
    as Ev4.
  rewrite F2 in Ev4. simpl in Ev4.
  destruct Ev4 as (S4 & _ & l4 & L4 & _).
  { intros j Hj.
    assert (j ∈ listdir (w_fs wb) (source_images base)) as Hj'
      by (rewrite Hk; apply elem_of_app; right; by right).
    apply listdir_inv in Hj' as [m ->]. eauto. }
  assert ((Copy i (dest_images base ++ [n]), w_fs wa) ∈ run_log base t) as Hlog.
  { unfold run_log. rewrite Ef. simpl. rewrite L4.
    apply elem_of_app. left. apply elem_of_app. right. by left. }
  destruct (run_log_calls _ _ _ _ Hlog) as (_ & St & _).
  exists (w_fs wa), tc. split; [done|]. split; [done|]. split; [|split].
  - (* the destination directory exists at the time of the copy *)
    destruct (copy2_fs_inv _ _ _ _ Hc) as (d' & _ & _ & W).
    destruct (decide (dest_images base
                        = copy_target (w_fs wa) i (dest_images base ++ [n]))) as [Heq|Hne].
    + exfalso. revert Heq. unfold copy_target.
      destruct (isdir _ _); rewrite <- ?app_assoc;
        rewrite <- (app_nil_r (dest_images base)) at 1;
        by intros ?%app_inv_head.
    + apply (write_file_above _ _ _ _ _ W); [|done].
      unfold copy_target. destruct (isdir _ _); rewrite <- ?app_assoc;
        by apply prefix_app_r.
  - apply (steps_isdir _ _ _ _ _ _ St). apply prefix_snoc_not.
  - unfold run_fs. rewrite Ef. simpl.
    apply (steps_file _ _ _ _ _ _ _ S4).
    + split; [done|]. intros m Hm.
      assert (m <> n) by (intros ->; by apply Hnotin).
      destruct (image_target (w_fs wa) base n) as [Ht | Ht]; unfold i; rewrite Ht;
        split; intros Heq%app_inv_head; congruence.
    + by apply (copy2_fs_target _ _ _ _ _ Hc).
Qed.

End Copied.

(** ** The answers file and the images after a run *)

Lemma copy_target_json (base : path) (t : node) :
  copy_target t (source_json base) (dest_json base)
  = if isdir t (dest_json base) then dest_json base ++ ["correct_answers.json"]
    else dest_json base.
Proof. unfold copy_target, source_json. by rewrite name_snoc. Qed.

Lemma copy_target_image (base : path) (t : node) (n : string) :
  copy_target t (source_images base ++ [n]) (dest_images base ++ [n])
  = if isdir t (dest_images base ++ [n]) then dest_images base ++ [n; n]
    else dest_images base ++ [n].
Proof. unfold copy_target. by rewrite name_snoc, <- app_assoc. Qed.

(** C2, as the code has it: when the answers file exists in the source root
    and the run comes to its end, the answers file is a regular file and its
    bytes are at the destination path correct_answers.json, unless that path
    was a directory before the run; then they are in that directory, under
    the same name. *)
Theorem C2_answers_copied (base : path) (t : node) :
  exists_at t (source_json base) = true ->
  (run base t).1 = inr tt ->
  exists d,
    resolve t (source_json base) = Some (File d)
    /\ (isdir t (dest_json base) = false ->
        resolve (run_fs base t) (dest_json base) = Some (File d))
    /\ (isdir t (dest_json base) = true ->
        resolve (run_fs base t) (dest_json base ++ ["correct_answers.json"])
        = Some (File d)).
Proof.
  intros Hex Hok. destruct (json_copied base t Hok Hex) as (d & Hs & Hd).
  exists d. split; [done|]. rewrite copy_target_json in Hd.
  split; intros Hdir; by rewrite Hdir in Hd.
Qed.

Lemma C2_answers_copied_witness :
  exists d,
    resolve fs_typical (source_json site) = Some (File d)
    /\ (isdir fs_typical (dest_json site) = false ->
        resolve (run_fs site fs_typical) (dest_json site) = Some (File d))
    /\ (isdir fs_typical (dest_json site) = true ->
        resolve (run_fs site fs_typical) (dest_json site ++ ["correct_answers.json"])
        = Some (File d)).
Proof.
  apply (C2_answers_copied site fs_typical); reflexivity.
Defined.

(** C2 as stated fails: with a directory at the destination path the run
    comes to its end and the destination root holds no regular file
    correct_answers.json with the bytes of the source. *)
Lemma C2_counterexample :
  exists_at fs_json_dest_dir (source_json site) = true
  /\ (run site fs_json_dest_dir).1 = inr tt
  /\ ~ exists d,
         resolve fs_json_dest_dir (source_json site) = Some (File d)
         /\ resolve (run_fs site fs_json_dest_dir) (dest_json site) = Some (File d).
Proof.
  split; [reflexivity|]. split; [reflexivity|].
  intros (d & _ & H). vm_compute in H. discriminate.
Qed.

(** C3, as the code has it: after a run that came to its end, a regular file
    [n] of the source image directory has its bytes at the path [n] of the
    destination image directory, unless that path was a directory before the
    run; then they are in that directory, under the same name. An entry of
    the source image directory that is a directory is the source of no copy,
    and neither is anything below it. *)
Theorem C3_images_copied (base : path) (t : node) (n : string) (d : list byte) :
  (run base t).1 = inr tt ->
  resolve t (source_images base ++ [n]) = Some (File d) ->
  (isdir t (dest_images base ++ [n]) = false ->
   resolve (run_fs base t) (dest_images base ++ [n]) = Some (File d))
  /\ (isdir t (dest_images base ++ [n]) = true ->
      resolve (run_fs base t) (dest_images base ++ [n; n]) = Some (File d))
  /\ (forall m rest dst s,
        isdir t (source_images base ++ [m]) = true ->
        (Copy (source_images base ++ m :: rest) dst, s) ∉ run_log base t).
Proof.
  intros Hok Hn.
  destruct (image_copied base t n d Hok Hn) as (s & s' & _ & _ & _ & Hdir & Hd).
  rewrite copy_target_image, Hdir in Hd.
  split; [|split].
  - intros Hf. by rewrite Hf in Hd.
  - intros Hf. by rewrite Hf in Hd.
  - intros m rest dst s0 Hm Hin.
    destruct (run_log_calls _ _ _ _ Hin) as ([(_ & Hc & _)|[(Hc & _)|(k & Hk & Hc & _)]] & _).
    + injection Hc as Hsrc _. revert Hsrc.
      unfold source_images, source_json. rewrite <- app_assoc.
      by intros ?%app_inv_head.
    + done.
    + injection Hc as Hsrc _. apply app_inv_head in Hsrc.
      injection Hsrc as -> _. unfold isdir in Hm. unfold isfile in Hk.
      by destruct (resolve t (source_images base ++ [k])) as [[]|].
Qed.

Lemma C3_images_copied_witness :
  (isdir fs_typical (dest_images site ++ ["b.png"]) = false ->
   resolve (run_fs site fs_typical) (dest_images site ++ ["b.png"]) = Some (File bytes_b))
  /\ (isdir fs_typical (dest_images site ++ ["b.png"]) = true ->
      resolve (run_fs site fs_typical) (dest_images site ++ ["b.png"; "b.png"])
      = Some (File bytes_b))
  /\ (forall m rest dst s,
        isdir fs_typical (source_images site ++ [m]) = true ->
        (Copy (source_images site ++ m :: rest) dst, s) ∉ run_log site fs_typical).
Proof.
  apply (C3_images_copied site fs_typical "b.png" bytes_b); reflexivity.
Defined.

(** C3 as stated fails: the source image directory holds the regular files
    a.png and b.png, the run comes to its end, and the destination image
    directory has no regular file a.png with the bytes of the source. *)
Lemma C3_counterexample :
  resolve fs_image_dest_dir (source_images site ++ ["a.png"]) = Some (File bytes_a)
  /\ resolve fs_image_dest_dir (source_images site ++ ["b.png"]) = Some (File bytes_b)
  /\ (run site fs_image_dest_dir).1 = inr tt
  /\ resolve (run_fs site fs_image_dest_dir) (dest_images site ++ ["a.png"])
     <> Some (File bytes_a).
Proof.
  split; [reflexivity|]. split; [reflexivity|]. split; [reflexivity|].
  vm_compute. discriminate.
Qed.



(** C8: after a run that came to its end, a regular file that was at the
    destination path of a copied item, the answers file or an image, has the
    bytes of the source file, whatever it held before. *)
Theorem C8_overwrite (base : path) (t : node) :
  (run base t).1 = inr tt ->
  (forall d old,
     resolve t (source_json base) = Some (File d) ->
     resolve t (dest_json base) = Some (File old) ->
     resolve (run_fs base t) (dest_json base) = Some (File d))
  /\ (forall n d old,
        resolve t (source_images base ++ [n]) = Some (File d) ->
        resolve t (dest_images base ++ [n]) = Some (File old) ->
        resolve (run_fs base t) (dest_images base ++ [n]) = Some (File d)).
Proof.
  intros Hok. split.
  - intros d old Hs Hd.
    assert (exists_at t (source_json base) = true) as Hex
      by (unfold exists_at; by rewrite Hs).
    destruct (json_copied base t Hok Hex) as (d' & Hs' & Ht).
    rewrite Hs in Hs'. injection Hs' as <-.
    rewrite copy_target_json in Ht. unfold isdir in Ht. by rewrite Hd in Ht.
  - intros n d old Hs Hd.
    destruct (image_copied base t n d Hok Hs) as (s & s' & _ & _ & _ & Hdir & Ht).
    rewrite copy_target_image, Hdir in Ht. unfold isdir in Ht. by rewrite Hd in Ht.
Qed.

Lemma C8_overwrite_witness :
  (forall d old,
     resolve fs_stale (source_json site) = Some (File d) ->
     resolve fs_stale (dest_json site) = Some (File old) ->
     resolve (run_fs site fs_stale) (dest_json site) = Some (File d))
  /\ (forall n d old,
        resolve fs_stale (source_images site ++ [n]) = Some (File d) ->
        resolve fs_stale (dest_images site ++ [n]) = Some (File old) ->
        resolve (run_fs site fs_stale) (dest_images site ++ [n]) = Some (File d)).
Proof.
  apply (C8_overwrite site fs_stale). reflexivity.
Defined.

Example run_stale_overwrites :
  resolve fs_stale (dest_json site) = Some (File bytes_old)
  /\ resolve (run_fs site fs_stale) (dest_json site) = Some (File bytes_j)
  /\ resolve fs_stale (dest_images site ++ ["a.png"]) = Some (File bytes_old)
  /\ resolve (run_fs site fs_stale) (dest_images site ++ ["a.png"]) = Some (File bytes_a).
Proof. repeat split; vm_compute; reflexivity. Qed.

(** ** Paths a run does not reach *)

Section Apart.

Variable base : path.
Implicit Types (J : Prop) (N : string -> Prop) (t : node) (q : path).

Lemma prefix_of_longer (q p : path) (x : string) :
  ~ q `prefix_of` p ++ [x] -> ~ q `prefix_of` p.
Proof. intros H Hp. apply H. by apply prefix_app_r. Qed.

Lemma step_resolve J N t t' q :
  step base J N t t' -> apart base J N q -> resolve t' q = resolve t q.
Proof.
  intros [HJ H|_ _ H|n Hn _ H] (Hj & Hm & Hi).
  - apply (copy2_fs_resolve_ne _ _ _ _ _ H).
    specialize (Hj HJ).
    destruct (json_target t base) as [-> | ->]; [|done].
    apply (prefix_of_longer _ _ "correct_answers.json").
    by rewrite <- app_assoc.
  - by apply (mkdir_p_resolve_ne _ _ _ _ H).
  - apply (copy2_fs_resolve_ne _ _ _ _ _ H).
    specialize (Hi n Hn).
    destruct (image_target t base n) as [-> | ->]; [|done].
    apply (prefix_of_longer _ _ n). by rewrite <- app_assoc.
Qed.

Lemma steps_resolve J N t t' q :
  steps base J N t t' -> apart base J N q -> resolve t' q = resolve t q.
Proof.
  induction 1 as [|t u t' Hst _ IH]; [done|]. intros Hq.
  by rewrite IH, (step_resolve _ _ _ _ _ Hst).
Qed.

(** The image step does not reach the destination answers path. *)
Lemma apart_dest_json N : apart base False N (dest_json base).
Proof.
  unfold dest_json, website_dir. split; [done|]. split.
  - intros H%prefix_app_inv. by apply prefix_cons_inv_1 in H.
  - intros n _ H%prefix_app_inv. by apply prefix_cons_inv_1 in H.
Qed.

(** The copy of the answers file does not reach the destination image
    directory. *)
Lemma json_copy_dest_images t t' :
  copy2_fs (source_json base) (dest_json base) t = inr t' ->
  resolve t' (dest_images base) = resolve t (dest_images base).
Proof.
  intros H. apply (copy2_fs_resolve_ne _ _ _ _ _ H).
  unfold dest_images, website_dir.
  destruct (json_target t base) as [-> | ->];
    intros Hp%prefix_app_inv; by apply prefix_cons_inv_1 in Hp.
Qed.

End Apart.

(** ** How a run fails *)

Section Failure.

Variable base : path.
Implicit Types (t : node) (w : world) (e : exn).

Lemma write_file_os_error p d t e : write_file p d t = inl e -> os_error e.
Proof.
  revert t. induction p as [|n p IH]; intros t H; simpl in H.
  - destruct t; [done|]. by injection H as <-.
  - destruct t as [|es]; [by injection H as <-|].
    destruct (es !! n) as [c|].
    + destruct (write_file p d c) eqn:W; [|done]. injection H as <-. eauto.
    + destruct p; [done|]. by injection H as <-.
Qed.

Lemma mkdir_p_os_error p t e : mkdir_p p t = inl e -> os_error e.
Proof.
  revert t. induction p as [|n p IH]; intros t H; simpl in H.
  - destruct t; [|done]. by injection H as <-.
  - destruct t as [|es]; [by injection H as <-|].
    destruct (mkdir_p p _) eqn:W; [|done]. injection H as <-. eauto.
Qed.

Lemma copy2_fs_os_error src dst t e : copy2_fs src dst t = inl e -> os_error e.
Proof.
  unfold copy2_fs. destruct (samefile _ _ _); [by intros [= <-]|].
  destruct (resolve t src) as [[d|es]|]; try by intros [= <-].
  apply write_file_os_error.
Qed.

Lemma call_fs_os_error c t e : call_fs c t = inl e -> os_error e.
Proof.
  destruct c; [apply mkdir_p_os_error | apply copy2_fs_os_error].
Qed.

Lemma os_error_exit e : os_error e -> exit_code (inl e) = 1.
Proof. by destruct e. Qed.

Lemma traced_fail c e w w' :
  traced c (call_fs c) w = (inl e, w') -> raised (eq c) e w'.
Proof.
  rewrite traced_run. destruct (call_fs c (w_fs w)) as [e'|t'] eqn:E; [|done].
  intros [= <- <-]. by exists c, (w_log w).
Qed.

Lemma raised_weaken (P Q : call -> Prop) e w' :
  (forall c, P c -> Q c) -> raised P e w' -> raised Q e w'.
Proof. intros H (c & l & ? & ? & ?). exists c, l. auto. Qed.

Lemma update_json_fail w e w' :
  update_json base w = (inl e, w') ->
  raised (eq (Copy (source_json base) (dest_json base))) e w'.
Proof.
  rewrite update_json_run. destruct (exists_at _ _); [|done].
  apply (traced_fail (Copy _ _)).
Qed.

Lemma copy_item_fail n w e w' :
  copy_item base (source_images base ++ [n]) w = (inl e, w') ->
  raised (image_call base) e w'.
Proof.
  rewrite copy_item_run, name_snoc. destruct (isfile _ _); [|done].
  intros H%(traced_fail (Copy _ _)). eapply raised_weaken; [|exact H].
  intros c <-. right. by exists n.
Qed.

Lemma loop_fail items w e w' :
  (forall i, i ∈ items -> exists n, i = source_images base ++ [n]) ->
  for_ items (copy_item base) w = (inl e, w') ->
  raised (image_call base) e w'.
Proof.
  revert w. induction items as [|i items IH]; intros w Hi; simpl; [done|].
  unfold bind. destruct (copy_item base i w) as [[e'|[]] w1] eqn:E.
  - intros [= <- <-]. destruct (Hi i) as [n ->]; [by left|].
    by apply copy_item_fail in E.
  - apply IH. intros j Hj. apply Hi. by right.
Qed.

Lemma update_images_fail w e w' :
  update_images base w = (inl e, w') -> raised (image_call base) e w'.
Proof.
  rewrite update_images_run. destruct (exists_at _ _); [|done].
  destruct (ensure_dest_images base w) as [[e'|[]] w1] eqn:E.
  - intros [= <- <-]. unfold ensure_dest_images in E.
    destruct (exists_at _ _); [done|].
    apply (traced_fail (Mkdir _)) in E. eapply raised_weaken; [|exact E].
    intros c <-. by left.
  - apply loop_fail. by intros i ?%listdir_inv.
Qed.

(** A run ends with status 0, or with status 1 either because the source
    root is missing or because its last call raised. *)
Lemma run_outcome t :
  match (run base t).1 with
  | inr _ => run_exit base t = 0
  | inl e =>
      run_exit base t = 1
      /\ (exists_at t (historia_dir base) = false
          \/ (exists_at t (historia_dir base) = true
              /\ raised (fun c => c = Copy (source_json base) (dest_json base)
                                  \/ image_call base c) e (run base t).2))
  end.
Proof.
  unfold run_exit, run. rewrite main_run, check_historia_run. simpl.
  destruct (exists_at t (historia_dir base)); simpl; [|by auto].
  destruct (update_json base _) as [[e|[]] w1] eqn:E1; simpl.
  - apply update_json_fail in E1.
    split; [|right; split; [done|]].
    + destruct E1 as (c & l & _ & Hc & _).
      by apply os_error_exit, (call_fs_os_error _ _ _ Hc).
    + eapply raised_weaken; [|exact E1]. intros c <-. by left.
  - destruct (update_images base w1) as [[e|[]] w2] eqn:E2; simpl; [|done].
    apply update_images_fail in E2.
    split; [|right; split; [done|]].
    + destruct E2 as (c & l & _ & Hc & _).
      by apply os_error_exit, (call_fs_os_error _ _ _ Hc).
    + eapply raised_weaken; [|exact E2]. intros c ?. by right.
Qed.

End Failure.

(** ** Missing sub-items *)

Section Missing.

Variable base : path.
Implicit Types (t : node).

(** Without an answers file the answers step prints its warning and the run
    goes on with the image step. *)
Lemma run_without_json t :
  exists_at t (historia_dir base) = true ->
  exists_at t (source_json base) = false ->
  run base t =
  match update_images base (printed (msg_no_json base) (World t [] [])) with
  | (inr _, w2) => (inr tt, printed msg_done w2)
  | (inl e, w2) => (inl e, w2)
  end.
Proof.
  intros Hh Hj. unfold run. rewrite main_run, check_historia_run. simpl.
  rewrite Hh, update_json_run. simpl. by rewrite Hj.
Qed.

Lemma missing_json t :
  exists_at t (historia_dir base) = true ->
  exists_at t (source_json base) = false ->
  (exists o, run_out base t = msg_no_json base :: o)
  /\ (forall src s, (Copy src (dest_json base), s) ∉ run_log base t)
  /\ resolve (run_fs base t) (dest_json base) = resolve t (dest_json base)
  /\ (run_exit base t = 0
      \/ exists e, (run base t).1 = inl e
                   /\ run_exit base t = 1
                   /\ raised (image_call base) e (run base t).2).
Proof.
  intros Hh Hj. unfold run_out, run_log, run_fs, run_exit.
  rewrite (run_without_json t Hh Hj).
  pose proof (evolves_update_images base False
                (printed (msg_no_json base) (World t [] []))) as Ev.
  destruct (update_images base _) as [[e|[]] w2] eqn:E2;
    simpl in *; destruct Ev as (St & [o Ho] & l & Hl & Hc).
  - split; [exists o; by rewrite Ho|]. split; [|split].
    + intros src s Hin. rewrite Hl in Hin.
      destruct (Hc _ _ Hin) as ([(? & _)|[(? & _)|(n & _ & Heq & _)]] & _); try done.
      injection Heq as _ Heq. revert Heq. unfold dest_json, dest_images.
      rewrite <- app_assoc. by intros ?%app_inv_head.
    + apply (steps_resolve _ _ _ _ _ _ St), apart_dest_json.
    + right. exists e. split; [done|].
      apply update_images_fail in E2. split; [|done].
      destruct E2 as (c & k & _ & Hf & _).
      by apply os_error_exit, (call_fs_os_error _ _ _ Hf).
  - split; [exists (o ++ [msg_done]); by rewrite Ho|]. split; [|split].
    + intros src s Hin. rewrite Hl in Hin.
      destruct (Hc _ _ Hin) as ([(? & _)|[(? & _)|(n & _ & Heq & _)]] & _); try done.
      injection Heq as _ Heq. revert Heq. unfold dest_json, dest_images.
      rewrite <- app_assoc. by intros ?%app_inv_head.
    + apply (steps_resolve _ _ _ _ _ _ St), apart_dest_json.
    + by left.
Qed.

(** Without an image directory in the source the only call of the run is
    the copy of the answers file. *)
Lemma missing_images t :
  exists_at t (historia_dir base) = true ->
  exists_at t (source_images base) = false ->
  (forall c s, (c, s) ∈ run_log base t ->
               c = Copy (source_json base) (dest_json base))
  /\ (run_exit base t = 0
      \/ exists e, (run base t).1 = inl e
                   /\ run_exit base t = 1
                   /\ raised (eq (Copy (source_json base) (dest_json base))) e
                        (run base t).2).
Proof.
  intros Hh Hi. unfold run_log, run_exit, run.
  rewrite main_run, check_historia_run. simpl. rewrite Hh.
  pose proof (evolves_update_json base (fun _ => False) (World t [] [])) as Ev.
  destruct (update_json base _) as [[e|[]] w1] eqn:E1;
    simpl in *; destruct Ev as (St & _ & l & Hl & Hc).
  all: assert (forall c s, (c, s) ∈ l ->
                 c = Copy (source_json base) (dest_json base)) as Hlog
    by (intros c s Hin; destruct (Hc _ _ Hin) as (Hp & Sts & _); simpl in Sts;
        destruct Hp as [(_ & Heq & _)|[(_ & Hex & _)|(n & [] & _)]]; [exact Heq|];
        unfold exists_at, source_images in Hex, Hi;
        rewrite (steps_source _ _ _ _ _ _ Sts) in Hex; by rewrite Hi in Hex).
  - split.
    + intros c s Hin. rewrite Hl in Hin. by apply (Hlog c s).
    + right. exists e. split; [done|].
      apply update_json_fail in E1. split; [|done].
      destruct E1 as (c & k & _ & Hf & _).
      by apply os_error_exit, (call_fs_os_error _ _ _ Hf).
  - assert (exists_at (w_fs w1) (source_images base) = false) as Hi1.
    { unfold exists_at, source_images in *.
      by rewrite (steps_source _ _ _ _ _ _ St). }
    rewrite update_images_run, Hi1. simpl. split; [|by left].
    intros c s Hin. rewrite Hl in Hin. by apply (Hlog c s).
Qed.

Lemma missing_both t :
  exists_at t (historia_dir base) = true ->
  exists_at t (source_json base) = false ->
  exists_at t (source_images base) = false ->
  run_exit base t = 0
  /\ run_fs base t = t
  /\ run_log base t = []
  /\ run_out base t = [msg_no_json base; msg_no_images base; msg_done].
Proof.
  intros Hh Hj Hi. unfold run_exit, run_fs, run_log, run_out.
  rewrite (run_without_json t Hh Hj), update_images_run. simpl.
  by rewrite Hi.
Qed.

End Missing.

(** C5 as stated fails: the source root exists, the answers file is absent,
    and the run ends with status 1, because the copy of an image raises
    NotADirectoryError. *)
Lemma C5_counterexample :
  exists_at fs_images_is_file (historia_dir site) = true
  /\ exists_at fs_images_is_file (source_json site) = false
  /\ (run site fs_images_is_file).1 = inl NotADirectoryError
  /\ run_exit site fs_images_is_file <> 0.
Proof.
  split; [reflexivity|]. split; [reflexivity|]. split; [reflexivity|].
  vm_compute. discriminate.
Qed.

(** ** The destination image directory *)

Section DestImages.

Variable base : path.
Implicit Types (t : node) (w : world).

Lemma split_after {A} (l1 l2 pre post : list A) (e m : A) :
  l1 ++ e :: l2 = pre ++ m :: post -> e ∉ pre -> e <> m ->
  m ∈ l1 /\ e ∈ post.
Proof.
  revert l1. induction pre as [|a pre IH]; intros l1 H Hpre Hne.
  - destruct l1 as [|b l1]; simpl in H; injection H as H1 H2; [done|].
    subst. split; [by left|]. apply elem_of_app. right. by left.
  - destruct l1 as [|b l1]; simpl in H; injection H as H1 H2.
    + subst. destruct Hpre. by left.
    + subst. destruct (IH l1 H2) as [? ?]; [|done|].
      * intros ?. apply Hpre. by right.
      * split; [by right|done].
Qed.

(** The image step, started without a destination image directory: it calls
    [mkdir] first; either that raises, or every later call finds the
    directory in place. *)
Lemma images_creates_dir w r w2 :
  exists_at (w_fs w) (source_images base) = true ->
  exists_at (w_fs w) (dest_images base) = false ->
  update_images base w = (r, w2) ->
  exists post,
    w_log w2 = w_log w ++ (Mkdir (dest_images base), w_fs w) :: post
    /\ ((exists e, r = inl e /\ os_error e /\ post = [])
        \/ ((forall c s, (c, s) ∈ post -> isdir s (dest_images base) = true)
            /\ isdir (w_fs w2) (dest_images base) = true)).
Proof.
  intros Hs Hd. rewrite update_images_run, Hs.
  unfold ensure_dest_images. rewrite Hd. unfold mkdir. rewrite traced_run. simpl.
  destruct (mkdir_p (dest_images base) (w_fs w)) as [e|tb] eqn:Em.
  - intros [= <- <-]. exists []. split; [done|]. left. exists e.
    split; [done|]. split; [|done]. by apply mkdir_p_os_error in Em.
  - match goal with
    | |- for_ ?xs _ ?wb = _ -> _ =>
        intros Hloop;
        pose proof (evolves_loop base False (fun _ => True) xs wb) as Ev
    end.
    rewrite Hloop in Ev. simpl in Ev.
    destruct Ev as (St & _ & l & Hl & Hc).
    { intros i [n ->]%listdir_inv. eauto. }
    simpl in St, Hl. exists l. split; [by rewrite Hl, <- app_assoc|]. right.
    pose proof (mkdir_p_isdir _ _ _ Em) as Hdir. split.
    + intros c s Hin. destruct (Hc _ _ Hin) as (_ & Sts & _). simpl in Sts.
      by apply (steps_isdir_mono _ _ _ _ _ _ Sts).
    + by apply (steps_isdir_mono _ _ _ _ _ _ St).
Qed.

Lemma run_creates_dir t :
  exists_at t (source_images base) = true ->
  exists_at t (dest_images base) = false ->
  (run_exit base t = 1
   /\ forall c s, (c, s) ∈ run_log base t ->
        c = Copy (source_json base) (dest_json base) \/ c = Mkdir (dest_images base))
  \/ (exists pre s0 post,
        run_log base t = pre ++ (Mkdir (dest_images base), s0) :: post
        /\ (forall c s, (c, s) ∈ pre -> c = Copy (source_json base) (dest_json base))
        /\ exists_at s0 (dest_images base) = false
        /\ (forall c s, (c, s) ∈ post -> isdir s (dest_images base) = true)
        /\ isdir (run_fs base t) (dest_images base) = true).
Proof.
  intros Hs Hd.
  assert (exists_at t (historia_dir base) = true) as Hh
    by (by apply (exists_at_prefix _ _ ["images"])).
  (* the answers step *)
  assert (exists r1 w1,
    update_json base (World t [] []) = (r1, w1)
    /\ (forall c s, (c, s) ∈ w_log w1 -> c = Copy (source_json base) (dest_json base))
    /\ ((exists e, r1 = inl e /\ os_error e)
        \/ (r1 = inr tt
            /\ exists_at (w_fs w1) (source_images base) = true
            /\ exists_at (w_fs w1) (dest_images base) = false))) as (r1 & w1 & E1 & Hlog1 & H1).
  { rewrite update_json_run. simpl.
    destruct (exists_at t (source_json base)).
    - unfold copy2. rewrite traced_run. simpl.
      destruct (copy2_fs _ _ t) as [e|ta] eqn:Ec; eexists _, _; (split; [done|]); simpl.
      + split; [by intros c s [= -> _]%list_elem_of_singleton|].
        left. exists e. split; [done|]. by apply copy2_fs_os_error in Ec.
      + split; [by intros c s [= -> _]%list_elem_of_singleton|].
        right. split; [done|]. split.
        * by apply (copy2_fs_exists _ _ _ _ _ Ec).
        * unfold exists_at in *. by rewrite (json_copy_dest_images _ _ _ Ec).
    - eexists _, _. split; [done|]. simpl.
      split; [by intros c s ?%elem_of_nil|]. right. auto. }
  unfold run_exit, run_log, run_fs, run.
  rewrite main_run, check_historia_run. simpl. rewrite Hh, E1.
  destruct H1 as [(e & -> & He)|(-> & Hs1 & Hd1)]; simpl.
  { left. split; [by apply os_error_exit|]. intros c s Hin. left. eauto. }
  (* the image step *)
  destruct (update_images base w1) as [r2 w2] eqn:E2.
  destruct (images_creates_dir _ _ _ Hs1 Hd1 E2) as (post & Hl2 & H2).
  destruct H2 as [(e & -> & He & ->)|[Hpost Hdir]].
  - left. simpl. split; [by apply os_error_exit|].
    intros c s Hin. rewrite Hl2 in Hin.
    apply elem_of_app in Hin as [Hin|[= -> _]%list_elem_of_singleton]; eauto.
  - right. exists (w_log w1), (w_fs w1), post.
    assert (w_log (match r2 with
                   | inl e => (inl e, w2)
                   | inr _ => (inr tt, printed msg_done w2)
                   end).2 = w_log w2
            /\ w_fs (match r2 with
                     | inl e => (inl e, w2)
                     | inr _ => (inr tt, printed msg_done w2)
                     end).2 = w_fs w2) as [-> ->]
      by (by destruct r2 as [|[]]).
    eauto 10.
Qed.

End DestImages.

(** C6, as the code has it: when the source image directory exists and the
    destination image directory does not, every copy into the destination
    image directory is made with that directory in place and after the
    [mkdir] call that found it absent; and the run either ends with the
    directory in place, made by that [mkdir] call, or is ended, with status
    1 and before any image is copied, by an exception that the copy of the
    answers file or [mkdir] itself raised as the last call of the run. *)
Theorem C6_dest_dir_created_first (base : path) (t : node) :
  exists_at t (source_images base) = true ->
  exists_at t (dest_images base) = false ->
  (forall l1 src n s l2,
     run_log base t = l1 ++ (Copy src (dest_images base ++ [n]), s) :: l2 ->
     isdir s (dest_images base) = true
     /\ exists s0, (Mkdir (dest_images base), s0) ∈ l1
                   /\ exists_at s0 (dest_images base) = false)
  /\ ((isdir (run_fs base t) (dest_images base) = true
       /\ exists s0, (Mkdir (dest_images base), s0) ∈ run_log base t
                     /\ exists_at s0 (dest_images base) = false)
      \/ (exists e,
            (run base t).1 = inl e
            /\ run_exit base t = 1
            /\ raised (fun c => c = Copy (source_json base) (dest_json base)
                                \/ c = Mkdir (dest_images base)) e (run base t).2
            /\ forall src n s,
                 (Copy src (dest_images base ++ [n]), s) ∉ run_log base t)).
Proof.
  intros Hs Hd.
  assert (forall src n, Copy src (dest_images base ++ [n])
                        <> Copy (source_json base) (dest_json base)) as Hne.
  { intros src n [= _ Heq]. revert Heq. unfold dest_images, dest_json.
    rewrite <- app_assoc. by intros ?%app_inv_head. }
  destruct (run_creates_dir base t Hs Hd)
    as [[Hexit Hlog]|(pre & s0 & post & Hl & Hpre & Hs0 & Hpost & Hdir)].
  - assert (forall src n s,
              (Copy src (dest_images base ++ [n]), s) ∉ run_log base t) as Hno.
    { intros src n s Hin. destruct (Hlog _ _ Hin) as [Heq|Heq]; [|done].
      by apply Hne in Heq. }
    split.
    { intros l1 src n s l2 Heq. destruct (Hno src n s).
      rewrite Heq. apply elem_of_app. right. by left. }
    right. pose proof (run_outcome base t) as Hout.
    destruct (run base t).1 as [e|[]] eqn:E; [|by rewrite Hout in Hexit].
    exists e. split; [done|]. split; [done|]. split; [|done].
    destruct Hout as [_ [Hh|[_ (c & l & Hlast & Hc & _)]]].
    { apply (exists_at_prefix _ _ ["images"]) in Hs. congruence. }
    exists c, l. split; [done|]. split; [done|].
    apply (Hlog c (w_fs (run base t).2)). unfold run_log. rewrite Hlast.
    apply elem_of_app. right. by left.
  - split.
    + intros l1 src n s l2 Heq. rewrite Hl in Heq.
      symmetry in Heq. destruct (split_after l1 l2 pre post _ _ Heq) as [Hmk Hin].
      * intros Hin. apply Hpre in Hin. by apply Hne in Hin.
      * done.
      * split; [by apply (Hpost _ _ Hin)|]. by exists s0.
    + left. split; [done|]. exists s0. split; [|done].
      rewrite Hl. apply elem_of_app. right. by left.
Qed.

Lemma C6_dest_dir_created_first_witness :
  (forall l1 src n s l2,
     run_log site fs_no_dest_images
     = l1 ++ (Copy src (dest_images site ++ [n]), s) :: l2 ->
     isdir s (dest_images site) = true
     /\ exists s0, (Mkdir (dest_images site), s0) ∈ l1
                   /\ exists_at s0 (dest_images site) = false)
  /\ ((isdir (run_fs site fs_no_dest_images) (dest_images site) = true
       /\ exists s0, (Mkdir (dest_images site), s0) ∈ run_log site fs_no_dest_images
                     /\ exists_at s0 (dest_images site) = false)
      \/ (exists e,
            (run site fs_no_dest_images).1 = inl e
            /\ run_exit site fs_no_dest_images = 1
            /\ raised (fun c => c = Copy (source_json site) (dest_json site)
                                \/ c = Mkdir (dest_images site)) e
                 (run site fs_no_dest_images).2
            /\ forall src n s,
                 (Copy src (dest_images site ++ [n]), s) ∉ run_log site fs_no_dest_images)).
Proof.
  apply (C6_dest_dir_created_first site fs_no_dest_images); reflexivity.
Defined.

Example run_no_dest_images :
  (fst <$> run_log site fs_no_dest_images)
  = [Copy ["Historia"; "correct_answers.json"] ["site"; "correct_answers.json"];
     Mkdir ["site"; "images"];
     Copy ["Historia"; "images"; "a.png"] ["site"; "images"; "a.png"];
     Copy ["Historia"; "images"; "b.png"] ["site"; "images"; "b.png"]]
  /\ isdir fs_no_dest_images (dest_images site) = false
  /\ isdir (run_fs site fs_no_dest_images) (dest_images site) = true
  /\ run_exit site fs_no_dest_images = 0.
Proof. repeat split; vm_compute; reflexivity. Qed.

(** ** Running the script again *)

Section Again.

Variable base : path.
Implicit Types (t u : node) (w v : world) (n : string).

Lemma steps_source_images J N t t' (x : path) :
  steps base J N t t' ->
  resolve t' (source_images base ++ x) = resolve t (source_images base ++ x).
Proof.
  intros St. unfold source_images. rewrite <- app_assoc.
  apply (steps_source _ _ _ _ _ _ St).
Qed.

Lemma update_json_quiet v :
  json_settled base (w_fs v) -> yields (update_json base) v (inr tt) (w_fs v).
Proof.
  intros Hs. unfold yields. rewrite update_json_run.
  destruct (exists_at _ _) eqn:E; [|done].
  destruct Hs as [Hs|Hs]; [congruence|].
  unfold copy2. rewrite traced_run. simpl. by rewrite Hs.
Qed.

Lemma json_settled_steps N t t' :
  json_settled base t -> steps base False N t t' -> json_settled base t'.
Proof.
  intros [Hs|Hs] St.
  - left. unfold exists_at, source_json in *.
    by rewrite (steps_source _ _ _ _ _ _ St).
  - right. destruct (copy2_fs_inv _ _ _ _ Hs) as (d & E & Hne & W).
    apply (copy2_fs_noop _ _ t _ d); try done.
    + unfold source_json in *. by rewrite (steps_source _ _ _ _ _ _ St).
    + apply (steps_isdir _ _ _ _ _ _ St).
      unfold dest_json, dest_images, website_dir.
      intros Hp%prefix_app_inv. by apply prefix_cons_inv_1 in Hp.
    + apply (steps_file _ _ _ _ _ _ _ St).
      * split; [done|]. intros n _.
        destruct (json_target t base) as [-> | ->]; split; by intros ?%app_inv_head.
      * by apply write_file_resolve_eq in W.
Qed.

(** After the loop over the images has run, running it again changes
    nothing and ends the same way. *)
Lemma loop_settle items :
  NoDup items ->
  (forall i, i ∈ items -> exists n, i = source_images base ++ [n]) ->
  forall w r w',
    for_ items (copy_item base) w = (r, w') ->
    forall v, w_fs v = w_fs w' ->
      yields (for_ items (copy_item base)) v r (w_fs w').
Proof.
  induction items as [|i items IH]; intros Hnd Hi w r w' Hrun v Hv.
  { simpl in Hrun. injection Hrun as <- <-. by split. }
  apply NoDup_cons in Hnd as [Hnotin Hnd].
  destruct (Hi i) as [n ->]; [by left|].
  assert (forall j, j ∈ items -> exists m, j = source_images base ++ [m]) as Hi'
    by (intros j Hj; apply Hi; by right).
  assert (forall j, j ∈ items -> exists m, j = source_images base ++ [m]
                                      /\ source_images base ++ [m] ∈ items) as Hi''
    by (intros j Hj; destruct (Hi' j Hj) as [m ->]; eauto).
  (* the whole loop leaves the source as it is *)
  pose proof (evolves_loop base False (fun _ => True)
                ((source_images base ++ [n]) :: items) w) as Ev.
  rewrite Hrun in Ev. destruct Ev as (Stall & _).
  { intros j Hj. destruct (Hi j Hj) as [m ->]. eauto. }
  simpl in Stall.
  simpl in Hrun. unfold bind in Hrun. unfold yields. simpl. unfold bind.
  rewrite copy_item_run in Hrun. rewrite copy_item_run.
  rewrite name_snoc in *.
  assert (isfile (w_fs v) (source_images base ++ [n])
          = isfile (w_fs w) (source_images base ++ [n])) as Hf.
  { unfold isfile. by rewrite Hv, (steps_source_images _ _ _ _ _ Stall). }
  rewrite Hf. destruct (isfile (w_fs w) _) eqn:Ef.
  - unfold copy2 in *. rewrite traced_run in *. simpl in *.
    destruct (copy2_fs _ _ (w_fs w)) as [e|tc] eqn:Ec.
    + (* the copy raised: the run stopped here, and stops here again *)
      injection Hrun as <- <-. simpl in Hv. by rewrite Hv, Ec.
    + (* the copy was made: it is a no-op now *)
      match type of Hrun with
      | for_ _ _ ?wc = _ =>
          pose proof (evolves_loop base False
                        (fun m => source_images base ++ [m] ∈ items) items wc Hi'')
            as Ev
      end.
      rewrite Hrun in Ev.
      destruct Ev as (Strest & _). simpl in Strest.
      destruct (copy2_fs_inv _ _ _ _ Ec) as (d & E & Hne & W).
      assert (copy2_fs (source_images base ++ [n]) (dest_images base ++ [n]) (w_fs v)
              = inr (w_fs v)) as Hnoop.
      { rewrite Hv. apply (copy2_fs_noop _ _ (w_fs w) _ d); try done.
        - by rewrite (steps_source_images _ _ _ _ _ Stall).
        - apply (steps_isdir _ _ _ _ _ _ Stall), prefix_snoc_not.
        - apply (steps_file _ _ _ _ _ _ _ Strest).
          + split; [done|]. intros m Hm.
            assert (m <> n) by (intros ->; by apply Hnotin).
            destruct (image_target (w_fs w) base n) as [-> | ->];
              split; intros Heq%app_inv_head; congruence.
          + by apply write_file_resolve_eq in W. }
      rewrite Hnoop.
      apply (IH Hnd Hi' _ _ _ Hrun). simpl. done.
  - by apply (IH Hnd Hi' _ _ _ Hrun).
Qed.

(** The image step has nothing left to do in the file system it produced. *)
Lemma update_images_settle w r w' :
  update_images base w = (r, w') ->
  forall v, w_fs v = w_fs w' -> yields (update_images base) v r (w_fs w').
Proof.
  intros Hrun v Hv.
  pose proof (evolves_update_images base False w) as Ev.
  rewrite Hrun in Ev. destruct Ev as (Stall & _). simpl in Stall.
  unfold yields. rewrite update_images_run in Hrun. rewrite update_images_run.
  assert (exists_at (w_fs v) (source_images base)
          = exists_at (w_fs w) (source_images base)) as Hex.
  { unfold exists_at. rewrite Hv.
    rewrite <- (app_nil_r (source_images base)).
    by rewrite (steps_source_images _ _ _ _ _ Stall). }
  rewrite Hex. destruct (exists_at (w_fs w) (source_images base)) eqn:Es.
  2: { injection Hrun as <- <-. by split. }
  unfold ensure_dest_images in *.
  destruct (exists_at (w_fs w) (dest_images base)) eqn:Ed.
  - (* the destination directory was there *)
    assert (exists_at (w_fs v) (dest_images base) = true) as ->
      by (rewrite Hv; by apply (steps_exists _ _ _ _ _ _ Stall)).
    assert (listdir (w_fs v) (source_images base)
            = listdir (w_fs w) (source_images base)) as ->.
    { apply listdir_ext. rewrite Hv, <- (app_nil_r (source_images base)).
      by rewrite (steps_source_images _ _ _ _ _ Stall). }
    apply (loop_settle _ (NoDup_listdir _ _) (listdir_inv _ _) _ _ _ Hrun _ Hv).
  - (* it was created, or its creation raised *)
    unfold mkdir in Hrun. rewrite traced_run in Hrun. simpl in Hrun.
    destruct (mkdir_p (dest_images base) (w_fs w)) as [e|tb] eqn:Em.
    + injection Hrun as <- <-. simpl in Hv. rewrite Hv, Ed.
      unfold mkdir. rewrite traced_run. simpl. by rewrite Hv, Em.
    + match type of Hrun with
      | for_ ?xs _ ?wb = _ =>
          pose proof (evolves_loop base False (fun _ => True) xs wb) as Ev
      end.
      rewrite Hrun in Ev. destruct Ev as (Stb & _).
      { intros i [n ->]%listdir_inv. eauto. }
      simpl in Stb.
      assert (exists_at (w_fs v) (dest_images base) = true) as ->.
      { rewrite Hv. apply (steps_exists _ _ _ _ _ _ Stb).
        pose proof (mkdir_p_isdir _ _ _ Em) as Hd.
        unfold isdir in Hd. unfold exists_at.
        by destruct (resolve tb (dest_images base)). }
      assert (listdir (w_fs v) (source_images base)
              = listdir tb (source_images base)) as ->.
      { apply listdir_ext. rewrite Hv, <- (app_nil_r (source_images base)).
        by rewrite (steps_source_images _ _ _ _ _ Stb). }
      apply (loop_settle _ (NoDup_listdir _ _) (listdir_inv _ _) _ _ _ Hrun _ Hv).
Qed.

Lemma update_json_fs w e w' :
  update_json base w = (inl e, w') -> w_fs w' = w_fs w.
Proof.
  rewrite update_json_run. destruct (exists_at _ _); [|done].
  unfold copy2. rewrite traced_run. simpl.
  destruct (copy2_fs _ _ _); [|done]. by intros [= _ <-].
Qed.

Lemma update_json_settles w w' :
  update_json base w = (inr tt, w') -> json_settled base (w_fs w').
Proof.
  rewrite update_json_run. destruct (exists_at _ _) eqn:E.
  - unfold copy2. rewrite traced_run. simpl.
    destruct (copy2_fs _ _ _) as [e|ta] eqn:Ec; [done|].
    intros [= <-]. right. simpl. by apply (copy2_fs_again _ _ _ _ Ec).
  - intros [= <-]. by left.
Qed.

(** A second run finds everything done: it leaves the file system of the
    first run as it is and ends the way the first run did. *)
Lemma run_again t :
  yields (main base) (World (run_fs base t) [] []) (run base t).1 (run_fs base t).
Proof.
  unfold run_fs, run, yields. rewrite !main_run, !check_historia_run. simpl.
  destruct (exists_at t (historia_dir base)) eqn:Eh; simpl.
  2: { by rewrite Eh. }
  destruct (update_json base (World t [] [])) as [[e|[]] w1] eqn:E1; simpl.
  { (* the copy of the answers file raised: nothing has changed *)
    rewrite (update_json_fs _ _ _ E1). simpl. rewrite Eh, E1. simpl.
    split; [done|]. apply (update_json_fs _ _ _ E1). }
  pose proof (evolves_update_json base (fun _ => False) (World t [] [])) as Ev1.
  rewrite E1 in Ev1. destruct Ev1 as (S1 & _). simpl in S1.
  destruct (update_images base w1) as [r2 w2] eqn:E2.
  pose proof (evolves_update_images base False w1) as Ev2.
  rewrite E2 in Ev2. destruct Ev2 as (S2 & _). simpl in S2.
  assert (w_fs (match r2 with
                | inl e => (inl e, w2)
                | inr _ => (inr tt, printed msg_done w2)
                end).2 = w_fs w2) as -> by (by destruct r2 as [|[]]).
  assert (exists_at (w_fs w2) (historia_dir base) = true) as ->.
  { apply (steps_exists _ _ _ _ _ _ S2), (steps_exists _ _ _ _ _ _ S1), Eh. }
  destruct (update_json_quiet (World (w_fs w2) [] [])) as [Hr1 Hf1].
  { simpl. apply (json_settled_steps _ _ _ (update_json_settles _ _ E1) S2). }
  destruct (update_json base (World (w_fs w2) [] [])) as [r1' v1].
  simpl in Hr1, Hf1. subst r1'.
  destruct (update_images_settle _ _ _ E2 v1 Hf1) as [Hr2 Hf2].
  destruct (update_images base v1) as [r2' v2]. simpl in Hr2, Hf2. subst r2'.
  by destruct r2 as [|[]].
Qed.

End Again.

(** C7: running the tool a second time on the file system the first run
    left changes nothing: the whole file system, and with it every
    destination file and the set of destination files, is the same after two
    runs as after one, and the second run ends with the status of the first.
    The source content is the same for both runs, since a run leaves
    everything under the source root as it was. *)
Theorem C7_idempotent (base : path) (t : node) :
  run_fs base (run_fs base t) = run_fs base t
  /\ run_exit base (run_fs base t) = run_exit base t
  /\ forall s, resolve (run_fs base t) (historia_dir base ++ s)
               = resolve t (historia_dir base ++ s).
Proof.
  destruct (run_again base t) as [Hr Hf]. split; [|split].
  - exact Hf.
  - unfold run_exit, run at 1. by rewrite Hr.
  - intros s. apply (steps_source _ _ _ _ _ _ (run_steps base t)).
Qed.

Example run_twice_typical :
  run_fs site (run_fs site fs_typical) = run_fs site fs_typical
  /\ run_fs site fs_typical <> fs_typical.
Proof. split; [vm_compute; reflexivity|]. vm_compute. discriminate. Qed.

(** ** Runs that an exception ends early *)


(** C6 as stated fails: the source image directory exists, the destination
    image directory does not, the copy of the answers path raises
    IsADirectoryError, and the run ends with status 1 without having created
    the destination image directory. *)
Lemma C6_counterexample :
  exists_at fs_json_source_dir (source_images site) = true
  /\ exists_at fs_json_source_dir (dest_images site) = false
  /\ (run site fs_json_source_dir).1 = inl IsADirectoryError
  /\ run_exit site fs_json_source_dir = 1
  /\ exists_at (run_fs site fs_json_source_dir) (dest_images site) = false.
Proof. repeat split; vm_compute; reflexivity. Qed.

(** ** How a run ends *)

Lemma run_without_historia (base : path) (t : node) :
  exists_at t (historia_dir base) = false ->
  (run base t).1 = inl (SystemExit 1) /\ run_fs base t = t /\ run_log base t = [].
Proof.
  intros H. unfold run_log, run_fs, run.
  rewrite main_run, check_historia_run. simpl. by rewrite H.
Qed.

(** A run ends in one of three ways: normally, with status 0; by
    [sys.exit(1)], which happens exactly when the source root is missing and
    before anything is done; or by an [OSError] that its last call raised,
    with status 1 and the file system as that call found it. *)
Theorem run_status (base : path) (t : node) :
  match (run base t).1 with
  | inr _ => run_exit base t = 0 /\ exists_at t (historia_dir base) = true
  | inl (SystemExit c) =>
      c = 1 /\ exists_at t (historia_dir base) = false
      /\ run_fs base t = t /\ run_log base t = []
  | inl e =>
      run_exit base t = 1 /\ exists_at t (historia_dir base) = true
      /\ exists c l, run_log base t = l ++ [(c, run_fs base t)]
                     /\ call_fs c (run_fs base t) = inl e
  end.
Proof.
  pose proof (run_outcome base t) as H.
  destruct (exists_at t (historia_dir base)) eqn:Eh.
  - destruct (run base t).1 as [e|[]] eqn:E.
    + destruct H as [H1 [H2|[_ (c & l & Hl & Hc & _)]]]; [done|].
      assert (os_error e) as Hos by (by apply (call_fs_os_error _ _ _ Hc)).
      destruct e; try done; (split; [done|]); (split; [done|]); by exists c, l.
    + apply run_ok_inv in E as [? _]. by split.
  - destruct (run_without_historia base t Eh) as (E & ? & ?).
    rewrite E. by repeat split.
Qed.

(** ** What a run can reach *)

Lemma run_resolve_frame (base : path) (t : node) (q : path) :
  ~ q `prefix_of` dest_json base ++ ["correct_answers.json"] ->
  ~ q `prefix_of` dest_images base ->
  (forall n, isfile t (source_images base ++ [n]) = true ->
             ~ q `prefix_of` dest_images base ++ [n; n]) ->
  resolve (run_fs base t) q = resolve t q.
Proof.
  intros Hj Hd Hi. apply (steps_resolve _ _ _ _ _ _ (run_steps base t)).
  unfold dest_json, dest_images, website_dir in *.
  rewrite <- app_assoc in Hj. split; [done|]. split; [done|].
  intros n Hn. specialize (Hi n Hn). by rewrite <- app_assoc in Hi.
Qed.

(** A run changes nothing but what lies on the way to the targets of its
    copies: a path that is not above (or equal to) the place the answers
    file may be written to, the destination image directory, or the place an
    image of the source may be written to resolves after the run to what it
    resolved to before, however the run ends. *)
Theorem run_frame (base : path) (t : node) (q : path) :
  ~ q `prefix_of` dest_json base ++ ["correct_answers.json"] ->
  ~ q `prefix_of` dest_images base ->
  (forall n, isfile t (source_images base ++ [n]) = true ->
             ~ q `prefix_of` dest_images base ++ [n; n]) ->
  resolve (run_fs base t) q = resolve t q.
Proof. apply run_resolve_frame. Qed.

Lemma run_frame_witness :
  resolve (run_fs site fs_stale) ["site"; "keep.txt"]
  = resolve fs_stale ["site"; "keep.txt"].
Proof.
  apply (run_frame site fs_stale ["site"; "keep.txt"]).
  - vm_compute. intros [k Hk]. discriminate.
  - vm_compute. intros [k Hk]. discriminate.
  - intros n _. vm_compute. intros [k Hk]. discriminate.
Defined.

(** In the destination root, whatever is not called correct_answers.json or
    images is left as it was, with everything below it. *)
Theorem run_keeps_other_entries (base : path) (t : node) (x : string) (w : path) :
  x <> "correct_answers.json" -> x <> "images" ->
  resolve (run_fs base t) (base ++ x :: w) = resolve t (base ++ x :: w).
Proof.
  intros Hj Hi. apply run_resolve_frame; unfold dest_json, dest_images, website_dir;
    rewrite <- ?app_assoc.
  - intros H%prefix_app_inv. by apply prefix_cons_inv_1 in H.
  - intros H%prefix_app_inv. by apply prefix_cons_inv_1 in H.
  - intros n _. rewrite <- app_assoc.
    intros H%prefix_app_inv. by apply prefix_cons_inv_1 in H.
Qed.

Lemma run_keeps_other_entries_witness :
  resolve (run_fs site fs_typical) (site ++ "keep.txt" :: [])
  = resolve fs_typical (site ++ "keep.txt" :: []).
Proof.
  apply (run_keeps_other_entries site fs_typical "keep.txt" []); discriminate.
Defined.

(** What is outside the destination root, and not above it, is left as it
    was: the script writes below its own directory only. *)
Theorem run_keeps_outside (base : path) (t : node) (q : path) :
  ~ q `prefix_of` base -> ~ base `prefix_of` q ->
  resolve (run_fs base t) q = resolve t q.
Proof.
  intros Hq Hb.
  assert (forall k, ~ q `prefix_of` base ++ k) as Hk.
  { intros k [k1 Hk1]. destruct Hq.
    (* [q] and [base] are both prefixes of the same list *)
    destruct (prefix_weak_total q base (base ++ k)) as [?|?]; try done.
    - by exists k1.
    - by exists k. }
  apply run_resolve_frame; unfold dest_json, dest_images, website_dir.
  - rewrite <- app_assoc. apply Hk.
  - apply Hk.
  - intros n _. rewrite <- app_assoc. apply Hk.
Qed.

Lemma run_keeps_outside_witness :
  resolve (run_fs site fs_typical) ["Historia"; "images"; "sub"]
  = resolve fs_typical ["Historia"; "images"; "sub"].
Proof.
  apply (run_keeps_outside site fs_typical ["Historia"; "images"; "sub"]).
  - vm_compute. intros [k Hk]. discriminate.
  - vm_compute. intros [k Hk]. discriminate.
Defined.

(** ** Kinds of entries *)

Lemma isfile_alt (t : node) (q : path) :
  isfile t q = exists_at t q && negb (isdir t q).
Proof. unfold isfile, exists_at, isdir. by destruct (resolve t q) as [[]|]. Qed.

Lemma step_isfile_mono (base : path) (J : Prop) (N : string -> Prop)
    (t t' : node) (q : path) :
  step base J N t t' -> isfile t q = true -> isfile t' q = true.
Proof.
  intros Hst. rewrite !isfile_alt. intros [He Hd]%andb_true_iff.
  apply andb_true_iff. destruct Hst as [_ H|_ _ H|n _ _ H].
  - by rewrite (copy2_fs_exists _ _ _ _ _ H He), (copy2_fs_isdir _ _ _ _ _ H).
  - split; [by apply (mkdir_p_exists _ _ _ _ H)|].
    unfold exists_at, isdir in *.
    destruct (resolve t q) as [[d|es]|] eqn:E; try done.
    by rewrite (mkdir_p_file _ _ _ _ _ H E).
  - by rewrite (copy2_fs_exists _ _ _ _ _ H He), (copy2_fs_isdir _ _ _ _ _ H).
Qed.

Lemma steps_isfile_mono (base : path) (J : Prop) (N : string -> Prop)
    (t t' : node) (q : path) :
  steps base J N t t' -> isfile t q = true -> isfile t' q = true.
Proof. induction 1; eauto using step_isfile_mono. Qed.

(** A run changes the kind of no entry: a regular file is a regular file
    after the run and a directory a directory, however the run ends; and the
    only directories a run makes are the destination image directory and
    what is missing above it. *)
Theorem run_keeps_kinds (base : path) (t : node) (q : path) :
  (isfile t q = true -> isfile (run_fs base t) q = true)
  /\ (isdir t q = true -> isdir (run_fs base t) q = true)
  /\ (~ q `prefix_of` dest_images base -> isdir (run_fs base t) q = isdir t q).
Proof.
  pose proof (run_steps base t) as St. split; [|split].
  - apply (steps_isfile_mono _ _ _ _ _ _ St).
  - apply (steps_isdir_mono _ _ _ _ _ _ St).
  - apply (steps_isdir _ _ _ _ _ _ St).
Qed.

Lemma run_keeps_kinds_witness :
  (isfile fs_stale ["site"; "images"; "a.png"] = true ->
   isfile (run_fs site fs_stale) ["site"; "images"; "a.png"] = true)
  /\ (isdir fs_stale ["site"; "images"; "a.png"] = true ->
      isdir (run_fs site fs_stale) ["site"; "images"; "a.png"] = true)
  /\ (~ ["site"; "images"; "a.png"] `prefix_of` dest_images site ->
      isdir (run_fs site fs_stale) ["site"; "images"; "a.png"]
      = isdir fs_stale ["site"; "images"; "a.png"]).
Proof. apply (run_keeps_kinds site fs_stale ["site"; "images"; "a.png"]). Defined.

(** ** Source and destination in one directory *)

Lemma step_same_dir (base : path) (J : Prop) (N : string -> Prop) (t t' : node) :
  historia_dir base = base -> step base J N t t' -> False.
Proof.
  intros Heq [_ H|H1 H2 _|n _ _ H].
  - rewrite (same_dir_json _ Heq) in H. by apply copy2_fs_self in H.
  - rewrite (same_dir_images _ Heq) in H1. congruence.
  - rewrite (same_dir_images _ Heq) in H. by apply copy2_fs_self in H.
Qed.

Lemma steps_same_dir (base : path) (J : Prop) (N : string -> Prop) (t t' : node) :
  historia_dir base = base -> steps base J N t t' -> t' = t.
Proof.
  intros Heq H. destruct H as [|t u t' Hst _]; [done|].
  by destruct (step_same_dir _ _ _ _ _ Heq Hst).
Qed.

(** When the script itself is in a directory called Historia, source root
    and destination root are the same directory: no call changes anything,
    the copy of a regular answers file raises SameFileError, and the run
    comes to its end only when there is no answers file and no regular file
    in the image directory. *)
Theorem run_same_directory (base : path) (t : node) :
  historia_dir base = base ->
  run_fs base t = t
  /\ (isfile t (source_json base) = true -> (run base t).1 = inl SameFileError)
  /\ ((run base t).1 = inr tt ->
      exists_at t (source_json base) = false
      /\ forall n, isfile t (source_images base ++ [n]) = false).
Proof.
  intros Heq.
  assert (isfile t (source_json base) = true ->
          (run base t).1 = inl SameFileError) as Hsame.
  { intros Hf.
    assert (exists_at t (source_json base) = true) as Hex
      by (rewrite isfile_alt in Hf; by apply andb_true_iff in Hf as [? _]).
    assert (exists_at t (historia_dir base) = true) as Hh
      by (by apply (exists_at_prefix _ _ ["correct_answers.json"])).
    unfold run. rewrite main_run, check_historia_run. simpl. rewrite Hh.
    rewrite update_json_run. simpl. rewrite Hex.
    unfold copy2. rewrite traced_run. simpl.
    assert (copy2_fs (source_json base) (dest_json base) t = inl SameFileError) as ->; [|done].
    rewrite <- (same_dir_json _ Heq).
    unfold copy2_fs, copy_target, samefile, isdir, isfile in *.
    destruct (resolve t (source_json base)) as [[d|es]|]; try done.
    rewrite Hex. by rewrite bool_decide_eq_true_2. }
  split; [|split; [done|]].
  - apply (steps_same_dir _ _ _ _ _ Heq (run_steps base t)).
  - intros Hok. split.
    + destruct (exists_at t (source_json base)) eqn:Hex; [|done].
      destruct (json_copied base t Hok Hex) as (d & Hd & _).
      rewrite Hsame in Hok; [done|]. unfold isfile. by rewrite Hd.
    + intros n. destruct (isfile t (source_images base ++ [n])) eqn:Hf; [|done].
      unfold isfile in Hf.
      destruct (resolve t (source_images base ++ [n])) as [[d|es]|] eqn:E; try done.
      destruct (image_copied base t n d Hok E) as (s & s' & _ & Hc & _).
      rewrite (same_dir_images _ Heq) in Hc. by apply copy2_fs_self in Hc.
Qed.

Lemma run_same_directory_witness :
  run_fs historia fs_same_dir = fs_same_dir
  /\ (isfile fs_same_dir (source_json historia) = true ->
      (run historia fs_same_dir).1 = inl SameFileError)
  /\ ((run historia fs_same_dir).1 = inr tt ->
      exists_at fs_same_dir (source_json historia) = false
      /\ forall n, isfile fs_same_dir (source_images historia ++ [n]) = false).
Proof. apply (run_same_directory historia fs_same_dir). reflexivity. Defined.

(** ** The calls of a run, in order *)

Section Plan.

Variable base : path.
Implicit Types (t u : node) (w : world).

Lemma same_source_refl t : same_source base t t.
Proof. by intros x. Qed.

Lemma same_source_step J N t0 t t' :
  same_source base t0 t -> step base J N t t' -> same_source base t0 t'.
Proof. intros H Hst x. by rewrite (step_source _ _ _ _ _ _ Hst), H. Qed.

Lemma same_source_images t u (x : path) :
  same_source base t u ->
  resolve u (source_images base ++ x) = resolve t (source_images base ++ x).
Proof. intros H. unfold source_images. rewrite <- app_assoc. apply H. Qed.

Lemma same_source_isfile t u n :
  same_source base t u ->
  isfile u (source_images base ++ [n]) = isfile t (source_images base ++ [n]).
Proof. intros H. unfold isfile. by rewrite (same_source_images _ _ _ H). Qed.

Lemma same_source_listdir t u :
  same_source base t u ->
  listdir u (source_images base) = listdir t (source_images base).
Proof.
  intros H. apply listdir_ext.
  rewrite <- (app_nil_r (source_images base)). apply (same_source_images _ _ _ H).
Qed.

Lemma same_source_exists_images t u :
  same_source base t u ->
  exists_at u (source_images base) = exists_at t (source_images base).
Proof.
  intros H. unfold exists_at.
  rewrite <- (app_nil_r (source_images base)).
  by rewrite (same_source_images _ _ _ H).
Qed.

(** The loop makes the copies of its plan, one after the other, until one
    raises. *)
Lemma loop_log t0 items :
  (forall i, i ∈ items -> exists n, i = source_images base ++ [n]) ->
  forall w r w',
    same_source base t0 (w_fs w) ->
    for_ items (copy_item base) w = (r, w') ->
    exists l, w_log w' = w_log w ++ l
      /\ (fst <$> l) `prefix_of` items_plan base t0 items
      /\ (r = inr tt -> fst <$> l = items_plan base t0 items).
Proof.
  unfold items_plan.
  induction items as [|i items IH]; intros Hi w r w' Hsrc Hrun.
  { simpl in Hrun. injection Hrun as <- <-. exists []. by rewrite app_nil_r. }
  destruct (Hi i) as [n ->]; [by left|].
  assert (forall j, j ∈ items -> exists m, j = source_images base ++ [m]) as Hi'
    by (intros j Hj; apply Hi; by right).
  simpl in Hrun. unfold bind in Hrun. rewrite copy_item_run in Hrun.
  rewrite (same_source_isfile _ _ n Hsrc) in Hrun.
  destruct (isfile t0 (source_images base ++ [n])) eqn:Ef.
  - rewrite filter_cons_True by done. simpl.
    unfold copy2 in Hrun. rewrite traced_run in Hrun. simpl in Hrun.
    destruct (copy2_fs _ _ (w_fs w)) as [e|tc] eqn:Ec.
    + injection Hrun as <- <-. simpl. eexists. split; [done|]. simpl.
      split; [|done]. apply prefix_cons, prefix_nil.
    + assert (same_source base t0 tc) as Hsrc'.
      { apply (same_source_step False (fun _ => True) _ _ _ Hsrc).
        apply (step_image _ _ _ _ _ n);
          [done|by rewrite (same_source_isfile _ _ n Hsrc)|by rewrite name_snoc in Ec]. }
      destruct (IH Hi' (World tc _ _) _ _ Hsrc' Hrun) as (l & Hl & Hp & Heq).
      simpl in Hl. eexists (_ :: l). split; [by rewrite Hl, <- app_assoc|].
      rewrite !fmap_cons. cbn [fst].
      split; [by apply prefix_cons|]. intros Hr. by rewrite (Heq Hr).
  - rewrite filter_cons_False by (by rewrite Ef). by apply (IH Hi' _ _ _ Hsrc Hrun).
Qed.

Lemma images_log t0 w r w' :
  same_source base t0 (w_fs w) ->
  exists_at (w_fs w) (dest_images base) = exists_at t0 (dest_images base) ->
  update_images base w = (r, w') ->
  exists l, w_log w' = w_log w ++ l
    /\ (fst <$> l) `prefix_of` images_plan base t0
    /\ (r = inr tt -> fst <$> l = images_plan base t0).
Proof.
  intros Hsrc Hd. rewrite update_images_run. unfold images_plan.
  rewrite (same_source_exists_images _ _ Hsrc).
  destruct (exists_at t0 (source_images base)) eqn:Es.
  2: { intros [= <- <-]. exists []. by rewrite app_nil_r. }
  unfold ensure_dest_images. rewrite Hd.
  destruct (exists_at t0 (dest_images base)) eqn:Ed.
  - rewrite (same_source_listdir _ _ Hsrc). simpl.
    apply (loop_log _ _ (listdir_inv _ _) _ _ _ Hsrc).
  - unfold mkdir. rewrite traced_run. simpl.
    destruct (mkdir_p (dest_images base) (w_fs w)) as [e|tb] eqn:Em.
    + intros [= <- <-]. simpl. eexists. split; [done|]. simpl.
      split; [|done]. apply prefix_cons, prefix_nil.
    + assert (same_source base t0 tb) as Hsrc'.
      { apply (same_source_step False (fun _ => True) _ _ _ Hsrc).
        apply step_mkdir;
          [by rewrite (same_source_exists_images _ _ Hsrc)|congruence|done]. }
      simpl. rewrite (same_source_listdir _ _ Hsrc'). intros Hrun.
      destruct (loop_log _ _ (listdir_inv _ _) (World tb _ _) _ _ Hsrc' Hrun)
        as (l & Hl & Hp & Heq).
      simpl in Hl. eexists (_ :: l). split; [by rewrite Hl, <- app_assoc|].
      rewrite !fmap_cons. cbn [fst].
      split; [by apply prefix_cons|]. intros Hr. by rewrite (Heq Hr).
Qed.

End Plan.

Lemma run_log_plan (base : path) (t : node) :
  (fst <$> run_log base t) `prefix_of` plan base t
  /\ ((run base t).1 = inr tt -> fst <$> run_log base t = plan base t).
Proof.
  unfold run_log, run, plan. rewrite main_run, check_historia_run. simpl.
  destruct (exists_at t (historia_dir base)); simpl; [|done].
  rewrite update_json_run. unfold json_plan. simpl.
  assert (forall w1 pre,
            w_log w1 = pre -> same_source base t (w_fs w1) ->
            exists_at (w_fs w1) (dest_images base) = exists_at t (dest_images base) ->
            (fst <$> w_log (match update_images base w1 with
                            | (inr _, w2) => (inr tt, printed msg_done w2)
                            | (inl e, w2) => (inl e, w2)
                            end).2) `prefix_of` (fst <$> pre) ++ images_plan base t
            /\ ((match update_images base w1 with
                 | (inr _, w2) => (inr tt, printed msg_done w2)
                 | (inl e, w2) => (inl e, w2)
                 end).1 = inr tt ->
                fst <$> w_log (match update_images base w1 with
                               | (inr _, w2) => (inr tt, printed msg_done w2)
                               | (inl e, w2) => (inl e, w2)
                               end).2 = (fst <$> pre) ++ images_plan base t)) as Himg.
  { intros w1 pre Hpre Hsrc Hd.
    destruct (update_images base w1) as [r2 w2] eqn:E2.
    destruct (images_log base t _ _ _ Hsrc Hd E2) as (l & Hl & Hp & Heq).
    assert (w_log (match r2 with
                   | inl e => (inl e, w2)
                   | inr _ => (inr tt, printed msg_done w2)
                   end).2 = pre ++ l) as ->
      by (rewrite <- Hpre, <- Hl; by destruct r2 as [|[]]).
    rewrite fmap_app. split; [by apply prefix_app|].
    intros Hr. rewrite Heq; [done|]. by destruct r2 as [|[]]. }
  destruct (exists_at t (source_json base)) eqn:Ej.
  - unfold copy2. rewrite traced_run. simpl.
    destruct (copy2_fs (source_json base) (dest_json base) t) as [e|ta] eqn:Ec; simpl.
    + split; [|done]. apply prefix_cons, prefix_nil.
    + apply (Himg (World ta _ _) [(Copy (source_json base) (dest_json base), t)]).
      * done.
      * apply (same_source_step base True (fun _ => True) _ _ _ (same_source_refl base t)).
        by apply step_json.
      * simpl. unfold exists_at. by rewrite (json_copy_dest_images _ _ _ Ec).
  - by apply (Himg (printed (msg_no_json base) (World t [] [])) []).
Qed.

Example plan_typical :
  plan site fs_typical
  = [Copy ["Historia"; "correct_answers.json"] ["site"; "correct_answers.json"];
     Mkdir ["site"; "images"];
     Copy ["Historia"; "images"; "a.png"] ["site"; "images"; "a.png"];
     Copy ["Historia"; "images"; ".hidden"] ["site"; "images"; ".hidden"];
     Copy ["Historia"; "images"; "b.png"] ["site"; "images"; "b.png"]].
Proof. vm_compute. reflexivity. Qed.

Lemma NoDup_prefix {A} (l1 l2 : list A) :
  l1 `prefix_of` l2 -> NoDup l2 -> NoDup l1.
Proof. intros [k ->] H. by apply NoDup_app in H as [? _]. Qed.

Lemma NoDup_plan (base : path) (t : node) : NoDup (plan base t).
Proof.
  unfold plan. destruct (exists_at t (historia_dir base)); [|apply NoDup_nil_2].
  assert (NoDup (items_plan base t (listdir t (source_images base)))) as Hitems.
  { unfold items_plan. apply NoDup_fmap_2.
    - by intros a b [= -> _].
    - apply NoDup_filter, NoDup_listdir. }
  assert (forall c, c ∈ items_plan base t (listdir t (source_images base)) ->
            exists n, c = Copy (source_images base ++ [n])
                          (dest_images base ++ [name (source_images base ++ [n])])) as Hin.
  { unfold items_plan. intros c (i & -> & Hi)%list_elem_of_fmap.
    apply list_elem_of_filter in Hi as [_ [n ->]%listdir_inv]. eauto. }
  assert (NoDup (images_plan base t)) as Himg.
  { unfold images_plan. destruct (exists_at t (source_images base)); [|apply NoDup_nil_2].
    destruct (exists_at t (dest_images base)); [done|]. simpl.
    apply NoDup_cons. split; [|done]. by intros [n ?]%Hin. }
  unfold json_plan. destruct (exists_at t (source_json base)); [|done]. simpl.
  apply NoDup_cons. split; [|done].
  unfold images_plan. destruct (exists_at t (source_images base)); [|by intros ?%elem_of_nil].
  intros [Hc|Hc]%elem_of_app.
  - destruct (exists_at t (dest_images base)); [by apply elem_of_nil in Hc|].
    by apply list_elem_of_singleton in Hc.
  - apply Hin in Hc as [n [= Hsrc _]]. revert Hsrc.
    unfold source_json, source_images. rewrite <- app_assoc.
    by intros ?%app_inv_head.
Qed.

(** A run makes no call twice: the answers file is copied at most once,
    [mkdir] is called at most once, and no image is copied a second time,
    however many entries the image directory has. *)
Theorem run_calls_once (base : path) (t : node) : NoDup (fst <$> run_log base t).
Proof.
  destruct (run_log_plan base t) as [Hp _].
  apply (NoDup_prefix _ _ Hp), NoDup_plan.
Qed.

(** ** The last line printed *)

Section LastLine.

Variable base : path.
Implicit Types (w : world) (e : exn).





End LastLine.



Example aborted_run_last_line :
  last (run_out site fs_images_is_file)
  = Some (msg_copy ["Historia"; "images"; "a.png"] ["site"; "images"; "a.png"]).
Proof. vm_compute. reflexivity. Qed.

(** ** A source image path that is not a directory *)

Lemma resolve_absent_below (t : node) (p q : path) :
  resolve t p = None -> resolve t (p ++ q) = None.
Proof. intros H. by rewrite resolve_app, H. Qed.

Lemma mkdir_p_snoc (t : node) (p : path) (n : string) :
  isdir t p = true -> isfile t (p ++ [n]) = false ->
  exists t', mkdir_p (p ++ [n]) t = inr t'.
Proof.
  unfold isdir, isfile.
  revert t. induction p as [|m p IH]; intros t Hd Hf; simpl in *.
  - destruct t as [|es]; [done|]. destruct (es !! n) as [[d|es']|]; simpl; eauto; done.
  - destruct t as [|es]; [done|]. destruct (es !! m) as [c|] eqn:E; [|done]. simpl.
    destruct (IH c Hd Hf) as [c' ->]. eauto.
Qed.

(** The check of the source image path is an existence check too. When the
    path is taken by a regular file, [glob] lists nothing and no image is
    copied; but the destination image directory is still made when it is
    missing: with no answers file in the source and the script's directory
    in place, the run comes to its end with [mkdir] as its only call. *)
Theorem source_images_not_a_directory (base : path) (t : node) (d : list byte) :
  resolve t (source_images base) = Some (File d) ->
  (forall src dst s, (Copy src dst, s) ∈ run_log base t ->
                     src = source_json base /\ dst = dest_json base)
  /\ (exists_at t (source_json base) = false ->
      exists_at t (dest_images base) = false ->
      isdir t base = true ->
      run_exit base t = 0
      /\ fst <$> run_log base t = [Mkdir (dest_images base)]
      /\ isdir (run_fs base t) (dest_images base) = true
      /\ forall n, resolve (run_fs base t) (dest_images base ++ [n]) = None).
Proof.
  intros Hs.
  assert (forall n, isfile t (source_images base ++ [n]) = false) as Hnone
    by (intros n; unfold isfile; by rewrite (resolve_file_below _ _ _ _ _ Hs)).
  split.
  - intros src dst s Hin.
    destruct (run_log_calls _ _ _ _ Hin) as ([(_ & Hc & _)|[(Hc & _)|(n & Hn & _)]] & _).
    + by injection Hc as -> ->.
    + done.
    + by rewrite Hnone in Hn.
  - intros Hj Hd Hb.
    assert (exists_at t (source_images base) = true) as Hsi
      by (unfold exists_at; by rewrite Hs).
    assert (exists_at t (historia_dir base) = true) as Hh
      by (by apply (exists_at_prefix _ _ ["images"])).
    destruct (mkdir_p_snoc t base "images") as [tb Hm]; [done| |].
    { rewrite isfile_alt. unfold dest_images, website_dir in Hd. by rewrite Hd. }
    assert (listdir tb (source_images base) = []) as Hl.
    { assert (same_source base t tb) as Hsrc.
      { apply (same_source_step base False (fun _ => True) _ _ _ (same_source_refl base t)).
        by apply step_mkdir. }
      rewrite (same_source_listdir _ _ _ Hsrc). unfold listdir. by rewrite Hs. }
    unfold run_exit, run_log, run_fs. rewrite (run_without_json base t Hh Hj).
    rewrite update_images_run. simpl. rewrite Hsi.
    unfold ensure_dest_images. simpl. rewrite Hd.
    unfold mkdir. rewrite traced_run. simpl.
    unfold dest_images, website_dir in *. rewrite Hm. simpl. rewrite Hl. simpl.
    split; [done|]. split; [done|]. split.
    + by apply mkdir_p_isdir in Hm.
    + intros n. rewrite (mkdir_p_resolve_ne _ _ _ _ Hm) by apply prefix_snoc_not.
      apply resolve_absent_below. unfold exists_at in Hd.
      by destruct (resolve t (base ++ ["images"])).
Qed.

Lemma source_images_not_a_directory_witness :
  (forall src dst s, (Copy src dst, s) ∈ run_log site fs_images_source_is_file ->
                     src = source_json site /\ dst = dest_json site)
  /\ (exists_at fs_images_source_is_file (source_json site) = false ->
      exists_at fs_images_source_is_file (dest_images site) = false ->
      isdir fs_images_source_is_file site = true ->
      run_exit site fs_images_source_is_file = 0
      /\ fst <$> run_log site fs_images_source_is_file = [Mkdir (dest_images site)]
      /\ isdir (run_fs site fs_images_source_is_file) (dest_images site) = true
      /\ forall n, resolve (run_fs site fs_images_source_is_file)
                     (dest_images site ++ [n]) = None).
Proof.
  apply (source_images_not_a_directory site fs_images_source_is_file bytes_a).
  reflexivity.
Defined.

(** ** A destination image directory made by the run *)

(** When the destination image directory was missing and the run comes to
    its end, the directory holds the regular files of the source image
    directory, with their bytes, and nothing else: no entry for a
    subdirectory of the source, none for a name the source does not have. *)
Theorem fresh_dest_images_mirror (base : path) (t : node) (n : string) :
  (run base t).1 = inr tt ->
  exists_at t (dest_images base) = false ->
  resolve (run_fs base t) (dest_images base ++ [n])
  = match resolve t (source_images base ++ [n]) with
    | Some (File d) => Some (File d)
    | _ => None
    end.
Proof.
  intros Hok Hd.
  assert (resolve t (dest_images base ++ [n]) = None) as Hnone.
  { apply resolve_absent_below. unfold exists_at in Hd.
    by destruct (resolve t (dest_images base)). }
  destruct (resolve t (source_images base ++ [n])) as [[d|es]|] eqn:Es.
  - destruct (image_copied base t n d Hok Es) as (s & s' & _ & _ & _ & Hdir & Ht).
    rewrite copy_target_image, Hdir in Ht. unfold isdir in Ht.
    by rewrite Hnone in Ht.
  - rewrite <- Hnone. apply run_resolve_frame.
    + unfold dest_images, dest_json, website_dir. rewrite <- !app_assoc.
      intros H%prefix_app_inv. by apply prefix_cons_inv_1 in H.
    + apply prefix_snoc_not.
    + intros m Hm H%prefix_app_inv. apply prefix_cons_inv_1 in H as ->.
      unfold isfile in Hm. by rewrite Es in Hm.
  - rewrite <- Hnone. apply run_resolve_frame.
    + unfold dest_images, dest_json, website_dir. rewrite <- !app_assoc.
      intros H%prefix_app_inv. by apply prefix_cons_inv_1 in H.
    + apply prefix_snoc_not.
    + intros m Hm H%prefix_app_inv. apply prefix_cons_inv_1 in H as ->.
      unfold isfile in Hm. by rewrite Es in Hm.
Qed.

Lemma fresh_dest_images_mirror_witness :
  resolve (run_fs site fs_typical) (dest_images site ++ ["sub"])
  = match resolve fs_typical (source_images site ++ ["sub"]) with
    | Some (File d) => Some (File d)
    | _ => None
    end.
Proof. apply (fresh_dest_images_mirror site fs_typical "sub"); reflexivity. Defined.

(** ** The calls of a run, whatever order [glob] lists the images in *)

Lemma prefix_app_split {A} (L X Y : list A) :
  L `prefix_of` X ++ Y ->
  exists pre imgs,
    L = pre ++ imgs
    /\ pre `prefix_of` X
    /\ imgs `prefix_of` Y
    /\ (imgs <> [] -> pre = X)
    /\ (L = X ++ Y -> pre = X /\ imgs = Y).
Proof.
  intros HL.
  destruct (prefix_weak_total L X (X ++ Y) HL) as [H|[m ->]];
    [by apply prefix_app_r| |].
  - exists L, []. rewrite app_nil_r. split; [done|]. split; [done|].
    split; [apply prefix_nil|]. split; [done|].
    intros ->. apply prefix_length in H. rewrite length_app in H.
    assert (Y = []) as -> by (destruct Y; [done|simpl in H; lia]).
    by rewrite app_nil_r.
  - exists X, m. split; [done|]. split; [done|].
    split; [by apply prefix_app_inv in HL|]. split; [done|].
    by intros ?%app_inv_head.
Qed.

Lemma plan_head_copies (base : path) (t : node) :
  plan base t
  = head_plan base t
    ++ (if exists_at t (historia_dir base) && exists_at t (source_images base)
        then items_plan base t (listdir t (source_images base)) else []).
Proof.
  unfold plan, head_plan, images_plan.
  destruct (exists_at t (historia_dir base)); [|done].
  destruct (exists_at t (source_images base)); simpl; [|by rewrite !app_nil_r].
  destruct (exists_at t (dest_images base)); simpl; by rewrite ?app_nil_r, <- ?app_assoc.
Qed.

Lemma items_plan_listdir (base : path) (t : node) (c : call) :
  c ∈ items_plan base t (listdir t (source_images base)) <->
  exists n, c = Copy (source_images base ++ [n]) (dest_images base ++ [n])
            /\ isfile t (source_images base ++ [n]) = true.
Proof.
  unfold items_plan. rewrite list_elem_of_fmap. split.
  - intros (i & -> & Hi). apply list_elem_of_filter in Hi as [Hf Hi].
    apply listdir_inv in Hi as [n ->]. exists n. by rewrite name_snoc.
  - intros (n & -> & Hf). exists (source_images base ++ [n]).
    rewrite name_snoc. split; [done|]. apply list_elem_of_filter. split; [done|].
    apply elem_of_listdir. rewrite isfile_alt in Hf.
    apply andb_true_iff in Hf as [He _]. split; [|done].
    unfold exists_at in He.
    destruct (resolve t (source_images base ++ [n])) as [x|] eqn:E; [|done].
    by apply (resolve_snoc_isdir _ _ _ _ E).
Qed.

Lemma NoDup_items_plan (base : path) (t : node) (items : list path) :
  NoDup items -> NoDup (items_plan base t items).
Proof.
  intros H. unfold items_plan. apply NoDup_fmap_2.
  - by intros a b [= -> _].
  - by apply NoDup_filter.
Qed.

(** The mutating calls of a run come in phases that the file system at the
    start fixes: first the copy of the answers file, if the source has one;
    then [mkdir], if the source image path exists and the destination image
    directory does not; then copies of regular files of the source image
    directory to the paths of the same names, each at most once, in the
    order in which [glob] yields them. A run that comes to its end has made
    the calls of the first two phases and a copy of every regular file of
    the source image directory; a run that a call ends has made an initial
    part of them. *)
Theorem run_calls_by_phase (base : path) (t : node) :
  exists pre imgs,
    fst <$> run_log base t = pre ++ imgs
    /\ pre `prefix_of` head_plan base t
    /\ NoDup imgs
    /\ (forall c, c ∈ imgs ->
          exists n, c = Copy (source_images base ++ [n]) (dest_images base ++ [n])
                    /\ isfile t (source_images base ++ [n]) = true)
    /\ (imgs <> [] -> pre = head_plan base t)
    /\ ((run base t).1 = inr tt ->
          pre = head_plan base t
          /\ forall n, isfile t (source_images base ++ [n]) = true ->
               Copy (source_images base ++ [n]) (dest_images base ++ [n]) ∈ imgs).
Proof.
  destruct (run_log_plan base t) as [Hp Hall].
  rewrite plan_head_copies in Hp, Hall.
  destruct (prefix_app_split _ _ _ Hp) as (pre & imgs & HL & Hpre & Himgs & Hne & Heq).
  exists pre, imgs. split; [done|]. split; [done|].
  assert (forall c, c ∈ imgs ->
            c ∈ items_plan base t (listdir t (source_images base))) as Hin.
  { intros c Hc. apply (elem_of_prefix _ _ _ Hc) in Himgs.
    destruct (_ && _); [done|by apply elem_of_nil in Himgs]. }
  split; [|split; [|split; [done|]]].
  - apply (NoDup_prefix _ _ Himgs).
    destruct (_ && _); [|apply NoDup_nil_2]. apply NoDup_items_plan, NoDup_listdir.
  - intros c Hc. by apply items_plan_listdir, Hin.
  - intros Hok. destruct (Heq (Hall Hok)) as [-> ->]. split; [done|].
    intros n Hf.
    assert (exists_at t (source_images base) = true) as Hs.
    { rewrite isfile_alt in Hf. apply andb_true_iff in Hf as [He _].
      by apply (exists_at_prefix _ _ [n]). }
    apply run_ok_inv in Hok as [Hh _]. rewrite Hh, Hs. simpl.
    apply items_plan_listdir. eauto.
Qed.

Lemma run_calls_by_phase_witness :
  exists pre imgs,
    fst <$> run_log site fs_typical = pre ++ imgs
    /\ pre `prefix_of` head_plan site fs_typical
    /\ NoDup imgs
    /\ (forall c, c ∈ imgs ->
          exists n, c = Copy (source_images site ++ [n]) (dest_images site ++ [n])
                    /\ isfile fs_typical (source_images site ++ [n]) = true)
    /\ (imgs <> [] -> pre = head_plan site fs_typical)
    /\ ((run site fs_typical).1 = inr tt ->
          pre = head_plan site fs_typical
          /\ forall n, isfile fs_typical (source_images site ++ [n]) = true ->
               Copy (source_images site ++ [n]) (dest_images site ++ [n]) ∈ imgs).
Proof. apply (run_calls_by_phase site fs_typical). Defined.

(** ** Missing sub-items: what the run goes on to do *)

Lemma missing_json_calls (base : path) (t : node) :
  exists_at t (historia_dir base) = true ->
  exists_at t (source_json base) = false ->
  (forall c, c ∈ fst <$> run_log base t -> c ∈ images_plan base t)
  /\ ((run base t).1 = inr tt -> fst <$> run_log base t ≡ₚ images_plan base t).
Proof.
  intros Hh Hj. destruct (run_log_plan base t) as [Hp Hall].
  unfold plan, json_plan in Hp, Hall. rewrite Hh, Hj in Hp, Hall. simpl in Hp, Hall.
  split.
  - intros c Hc. by apply (elem_of_prefix _ _ _ Hc).
  - intros Hok. by rewrite (Hall Hok).
Qed.

Lemma missing_images_calls (base : path) (t : node) :
  exists_at t (historia_dir base) = true ->
  exists_at t (source_images base) = false ->
  (run base t).1 = inr tt -> fst <$> run_log base t = json_plan base t.
Proof.
  intros Hh Hi Hok. destruct (run_log_plan base t) as [_ Hall].
  rewrite (Hall Hok). unfold plan, images_plan. rewrite Hh, Hi.
  by rewrite app_nil_r.
Qed.

(** C5, as the code has it: with the source root present and the answers
    file absent, the run prints the warning, makes no copy to the
    destination answers path and leaves that path as it was, and goes on
    with the image step: it is the image step run after the warning, its
    calls are calls of the image step, all of them when the run comes to its
    end; its status is 0 unless a call of the image step raises, which ends
    the process with status 1. A missing image directory likewise leaves the
    copy of the answers file as the only call, which a run that comes to its
    end has made when the answers file exists. With both sub-items missing
    the status is 0 and nothing is changed. Whatever is missing, the status
    is 0 unless a call raises. *)
Theorem C5_missing_sub_items (base : path) (t : node) :
  exists_at t (historia_dir base) = true ->
  (exists_at t (source_json base) = false ->
     (exists o, run_out base t = msg_no_json base :: o)
     /\ (forall src s, (Copy src (dest_json base), s) ∉ run_log base t)
     /\ resolve (run_fs base t) (dest_json base) = resolve t (dest_json base)
     /\ run base t
        = match update_images base (printed (msg_no_json base) (World t [] [])) with
          | (inr _, w2) => (inr tt, printed msg_done w2)
          | (inl e, w2) => (inl e, w2)
          end
     /\ (forall c, c ∈ fst <$> run_log base t -> c ∈ images_plan base t)
     /\ ((run base t).1 = inr tt -> fst <$> run_log base t ≡ₚ images_plan base t)
     /\ (run_exit base t = 0
         \/ exists e, (run base t).1 = inl e
                      /\ run_exit base t = 1
                      /\ raised (image_call base) e (run base t).2))
  /\ (exists_at t (source_images base) = false ->
        (forall c s, (c, s) ∈ run_log base t ->
                     c = Copy (source_json base) (dest_json base))
        /\ ((run base t).1 = inr tt -> fst <$> run_log base t = json_plan base t)
        /\ (run_exit base t = 0
            \/ exists e, (run base t).1 = inl e
                         /\ run_exit base t = 1
                         /\ raised (eq (Copy (source_json base) (dest_json base))) e
                              (run base t).2))
  /\ (exists_at t (source_json base) = false ->
      exists_at t (source_images base) = false ->
        run_exit base t = 0
        /\ run_fs base t = t
        /\ run_log base t = []
        /\ run_out base t = [msg_no_json base; msg_no_images base; msg_done])
  /\ (run_exit base t = 0
      \/ exists e, (run base t).1 = inl e
                   /\ run_exit base t = 1
                   /\ raised (fun c => c = Copy (source_json base) (dest_json base)
                                       \/ image_call base c) e (run base t).2).
Proof.
  intros Hh. split; [|split; [|split]].
  - intros Hj. destruct (missing_json base t Hh Hj) as (H1 & H2 & H3 & H4).
    destruct (missing_json_calls base t Hh Hj) as (H5 & H6).
    pose proof (run_without_json base t Hh Hj) as H7. by repeat split.
  - intros Hi. destruct (missing_images base t Hh Hi) as (H1 & H2).
    pose proof (missing_images_calls base t Hh Hi) as H3. by repeat split.
  - by apply missing_both.
  - pose proof (run_outcome base t) as H.
    destruct (run base t).1 as [e|[]] eqn:E; [|by left].
    right. exists e. destruct H as [H1 [H2|[_ H2]]]; [congruence|done].
Qed.

Lemma C5_missing_sub_items_witness :
  (exists o, run_out site fs_images_only = msg_no_json site :: o)
  /\ (forall src s, (Copy src (dest_json site), s) ∉ run_log site fs_images_only)
  /\ resolve (run_fs site fs_images_only) (dest_json site)
     = resolve fs_images_only (dest_json site)
  /\ run site fs_images_only
     = match update_images site (printed (msg_no_json site) (World fs_images_only [] [])) with
       | (inr _, w2) => (inr tt, printed msg_done w2)
       | (inl e, w2) => (inl e, w2)
       end
  /\ (forall c, c ∈ fst <$> run_log site fs_images_only ->
                c ∈ images_plan site fs_images_only)
  /\ ((run site fs_images_only).1 = inr tt ->
      fst <$> run_log site fs_images_only ≡ₚ images_plan site fs_images_only)
  /\ (run_exit site fs_images_only = 0
      \/ exists e, (run site fs_images_only).1 = inl e
                   /\ run_exit site fs_images_only = 1
                   /\ raised (image_call site) e (run site fs_images_only).2).
Proof.
  apply (C5_missing_sub_items site fs_images_only); reflexivity.
Defined.

Example run_images_only :
  (fst <$> run_log site fs_images_only)
  = [Mkdir ["site"; "images"];
     Copy ["Historia"; "images"; "a.png"] ["site"; "images"; "a.png"]]
  /\ run_exit site fs_images_only = 0
  /\ resolve (run_fs site fs_images_only) ["site"; "images"; "a.png"]
     = Some (File bytes_a)
  /\ resolve (run_fs site fs_images_only) ["site"; "correct_answers.json"]
     = Some (File bytes_old).
Proof. repeat split; vm_compute; reflexivity. Qed.
